(** * The adaptive collection loop of the Spotify data agent

    A shallow embedding of [SpotifyDataAgent] (aiagent.py): the agent's
    mutable fields become a record threaded through a state-and-exception
    monad, the two HTTP calls become values handed in by the caller, and the
    [while] loop of [run_collection] becomes a fuelled fixpoint.

    Numbers.  Python ints are [Z].  The floats the agent computes are
    quotients of its counters and the delay multiplier; they are modelled by
    exact rationals [Q].  For counters below 2^50 the correctly rounded
    quotient [s / t] compares with the literals 0.5, 0.8 and 0.9 exactly as
    the rational [s / t] compares with 1/2, 4/5 and 9/10, and doubling a
    float is exact below overflow.

    The multiplier.  [delay_multiplier] starts at 1.0 and is only ever
    doubled in a run, so it is a power of two; the field holds that exact
    value.  The float of the source is the same number as long as it is
    below 2^1024 and is [inf] from there on; [sleep_length] reads the field
    through that view.

    The sleep.  [respectful_delay] takes the jitter it draws as an input and
    raises what [time.sleep] raises on the length it computes: ValueError on
    a negative or NaN length, OverflowError on one that does not fit the
    64-bit nanosecond clock.  How long it sleeps is not modelled.

    Not modelled: the logger (no method reads it back) and [start_time].
    [base_delay] is a finite float and [max_requests] an int, as [__init__]
    reads them from well-formed settings.

    The second half covers the rest of the code: in module [Reports], the
    simulated agent and the three report builders of
    spotify_agent_with_reports.py, up to the point where each report is
    written to its file. *)

From Stdlib Require Import List ListSet String Ascii ZArith QArith Qabs Bool Lia.
From Stdlib Require Import DecimalNat DecimalString Lqa.
Import ListNotations.

Local Open Scope string_scope.
Local Open Scope Z_scope.

(** ** Decoded JSON, as [response.json()] returns it *)

(** A JSON object is a Python [dict] with string keys, kept as its items in
    insertion order; numbers are rationals; a string is its sequence of
    characters. *)
#[local] Set Warnings "-register-all".
Inductive json : Type :=
| JNull                                  (* None *)
| JBool (b : bool)
| JNum (q : Q)
| JStr (s : string)
| JList (l : list json)
| JObj (o : list (string * json)).
#[local] Set Warnings "register-all".

Definition dict : Type := list (string * json).

(** Lookup takes the first binding of a key. *)
Fixpoint dict_get (k : string) (d : dict) : option json :=
  match d with
  | [] => None
  | (k', v) :: d' => if String.eqb k k' then Some v else dict_get k d'
  end.

(** [k in d] *)
Definition dict_in (k : string) (d : dict) : bool :=
  match dict_get k d with Some _ => true | None => false end.

(** Truth value of an object, as [if data:] and [if not token:] test it. *)
Definition truthy (v : json) : bool :=
  match v with
  | JNull => false
  | JBool b => b
  | JNum q => negb (Qnum q =? 0)
  | JStr s => negb (String.eqb s EmptyString)
  | JList l => match l with [] => false | _ :: _ => true end
  | JObj o => match o with [] => false | _ :: _ => true end
  end.

(** ** Exceptions and the agent's monad *)

Inductive exn : Type :=
| KeyError
| IndexError
| TypeError
| AttributeError
| ValueError
| OverflowError.

(** A pure computation that may raise. *)
Inductive result (A : Type) : Type :=
| Ok (a : A)
| Err (e : exn).
Arguments Ok {A} a.
Arguments Err {A} e.

Definition rbind {A B : Type} (r : result A) (k : A -> result B) : result B :=
  match r with
  | Ok a => k a
  | Err e => Err e
  end.

(** [collection_stats], without [start_time]. *)
Record CollectionStats : Type := mkStats {
  total_requests : Z;
  successful_requests : Z;
  failed_requests : Z;
  quality_scores : list Q
}.

Record Agent : Type := mkAgent {
  data_store : list dict;
  collection_stats : CollectionStats;
  delay_multiplier : Q;
  base_delay : Q;
  max_requests : Z
}.

(** A method call either returns a value or raises; both leave the agent in
    the state reached so far. *)
Inductive outcome (A : Type) : Type :=
| Return (a : A) (s : Agent)
| Raise (e : exn) (s : Agent).
Arguments Return {A} a s.
Arguments Raise {A} e s.

Definition M (A : Type) : Type := Agent -> outcome A.

Definition ret {A : Type} (a : A) : M A := fun s => Return a s.

Definition bind {A B : Type} (m : M A) (k : A -> M B) : M B :=
  fun s =>
    match m s with
    | Return a s' => k a s'
    | Raise e s' => Raise e s'
    end.

Definition gets {A : Type} (f : Agent -> A) : M A := fun s => Return (f s) s.

Definition modify (f : Agent -> Agent) : M unit := fun s => Return tt (f s).

Definition lift {A : Type} (r : result A) : M A :=
  fun s =>
    match r with
    | Ok a => Return a s
    | Err e => Raise e s
    end.

Declare Scope agent_scope.
Delimit Scope agent_scope with agent.
Notation "x <- m ;; k" := (bind m (fun x => k))
  (at level 61, m at next level, right associativity) : agent_scope.
Notation "m ;; k" := (bind m (fun _ => k))
  (at level 61, right associativity) : agent_scope.

(** Field updates of [self] and of [self.collection_stats]. *)
Definition with_stats (f : CollectionStats -> CollectionStats) (s : Agent) : Agent :=
  mkAgent (data_store s) (f (collection_stats s)) (delay_multiplier s)
          (base_delay s) (max_requests s).

Definition with_data_store (f : list dict -> list dict) (s : Agent) : Agent :=
  mkAgent (f (data_store s)) (collection_stats s) (delay_multiplier s)
          (base_delay s) (max_requests s).

Definition with_delay_multiplier (f : Q -> Q) (s : Agent) : Agent :=
  mkAgent (data_store s) (collection_stats s) (f (delay_multiplier s))
          (base_delay s) (max_requests s).

Definition incr_total (c : CollectionStats) : CollectionStats :=
  mkStats (total_requests c + 1) (successful_requests c) (failed_requests c)
          (quality_scores c).

Definition incr_successful (c : CollectionStats) : CollectionStats :=
  mkStats (total_requests c) (successful_requests c + 1) (failed_requests c)
          (quality_scores c).

Definition incr_failed (c : CollectionStats) : CollectionStats :=
  mkStats (total_requests c) (successful_requests c) (failed_requests c + 1)
          (quality_scores c).

Definition append_score (q : Q) (c : CollectionStats) : CollectionStats :=
  mkStats (total_requests c) (successful_requests c) (failed_requests c)
          (quality_scores c ++ [q]).

(** [__init__]: [base_delay] and [max_requests] come from the environment. *)
Definition init (base : Q) (max : Z) : Agent :=
  mkAgent [] (mkStats 0 0 0 []) 1%Q base max.

(** ** Python operations on decoded JSON *)

(** [v.get(k, default)]: only a dict has the method. *)
Definition py_get (v : json) (k : string) (default : json) : result json :=
  match v with
  | JObj o => Ok (match dict_get k o with Some x => x | None => default end)
  | _ => Err AttributeError
  end.

(** [v[k]] for a string [k]. *)
Definition py_getitem_str (v : json) (k : string) : result json :=
  match v with
  | JObj o => match dict_get k o with Some x => Ok x | None => Err KeyError end
  | _ => Err TypeError
  end.

(** [v[0]] *)
Definition py_getitem_0 (v : json) : result json :=
  match v with
  | JList l => match l with x :: _ => Ok x | [] => Err IndexError end
  | JStr s => match s with
              | String c _ => Ok (JStr (String c EmptyString))
              | EmptyString => Err IndexError
              end
  | JObj _ => Err KeyError
  | _ => Err TypeError
  end.

(** The elements [for a in v] ranges over: a list's elements, a dict's keys,
    a string's characters. *)
Definition py_iter (v : json) : result (list json) :=
  match v with
  | JList l => Ok l
  | JObj o => Ok (map (fun kv => JStr (fst kv)) o)
  | JStr s => Ok (map (fun c => JStr (String c EmptyString)) (list_ascii_of_string s))
  | _ => Err TypeError
  end.

(** A list comprehension [[f a for a in l]]: the first raise ends it. *)
Fixpoint comprehension {A B : Type} (f : A -> result B) (l : list A) : result (list B) :=
  match l with
  | [] => Ok []
  | a :: l' => rbind (f a) (fun b => rbind (comprehension f l') (fun bs => Ok (b :: bs)))
  end.

(** [sum] of a sequence of ints. *)
Definition py_sum (l : list Z) : Z := fold_left Z.add l 0.

Definition Qltb (x y : Q) : bool := negb (Qle_bool y x).

(** ** The network *)

(** What [requests.get] / [requests.post] does: raise, or return a response
    with a status code and a body; [body = None] when [response.json()]
    raises on it. *)
Inductive http_result : Type :=
| TransportError
| Response (status_code : Z) (body : option json).

(** ** Methods of [SpotifyDataAgent] *)

Local Open Scope agent_scope.

(** [raise_for_status] raises on 4xx and 5xx. *)
Definition raise_for_status (status_code : Z) : bool :=
  (400 <=? status_code) && (status_code <? 600).

(** Returns the token, or None ([JNull]) when anything in the [try] raised. *)
Definition get_token (r : http_result) : json :=
  match r with
  | TransportError => JNull
  | Response status_code body =>
      if raise_for_status status_code then JNull
      else match body with
           | None => JNull
           | Some v => match py_getitem_str v "access_token" with
                       | Ok token => token
                       | Err _ => JNull
                       end
           end
  end.

Definition collect_batch (r : http_result) : M json :=
  modify (with_stats incr_total) ;;
  match r with
  | Response status_code body =>
      if status_code =? 200 then
        modify (with_stats incr_successful) ;;
        match body with
        | Some v => ret v
        | None =>                       (* [response.json()] raised: except *)
            modify (with_stats incr_failed) ;; ret JNull
        end
      else
        modify (with_stats incr_failed) ;; ret JNull
  | TransportError =>
      modify (with_stats incr_failed) ;; ret JNull
  end.

(** One element of the comprehension in [process_data]; the dict display is
    evaluated left to right. *)
Definition process_item (a : json) : result dict :=
  rbind (py_getitem_str a "name") (fun name =>
  rbind (py_getitem_str a "artists") (fun artists =>
  rbind (py_getitem_0 artists) (fun artist0 =>
  rbind (py_getitem_str artist0 "name") (fun artist =>
  rbind (py_getitem_str a "id") (fun id =>
  Ok [("name", name); ("artist", artist); ("id", id)]))))).

Definition process_data (data : json) : result (list dict) :=
  rbind (py_get data "albums" (JObj [])) (fun albums_obj =>
  rbind (py_get albums_obj "items" (JList [])) (fun albums =>
  rbind (py_iter albums) (fun items =>
  comprehension process_item items))).

Definition has_required (d : dict) : bool :=
  dict_in "name" d && dict_in "artist" d.

Definition validate_data (data : list dict) : bool :=
  forallb has_required data.

Definition store_data (data : list dict) : M unit :=
  modify (with_data_store (fun store => (store ++ data)%list)).

(** The value [get_success_rate] returns; the method only reads. *)
Definition success_rate (s : Agent) : Q :=
  let total := total_requests (collection_stats s) in
  let successful := successful_requests (collection_stats s) in
  if 0 <? total then (inject_Z successful / inject_Z total)%Q else 0%Q.

Definition get_success_rate : M Q := gets success_rate.

Definition assess_data_quality : M Q :=
  store <- gets data_store ;;
  match store with
  | [] => ret 0%Q
  | _ :: _ =>
      let complete_items := py_sum (map (fun _ => 1) (filter has_required store)) in
      let score := (inject_Z complete_items / inject_Z (Z.of_nat (List.length store)))%Q in
      modify (with_stats (append_score score)) ;;
      ret score
  end.

(** Doubling a float is exact below overflow; the field takes the exact
    product, and [multiplier_overflowed] tells where the float is [inf].
    The product with 0.8 is taken up to rounding. *)
Definition adjust_strategy : M unit :=
  success_rate <- get_success_rate ;;
  if Qltb success_rate (1 # 2) then
    modify (with_delay_multiplier (fun m => m * 2)%Q)
  else if Qltb (9 # 10) success_rate then
    modify (with_delay_multiplier (fun m => m * (4 # 5))%Q)
  else ret tt.

Definition assess_performance : M unit :=
  success_rate <- get_success_rate ;;
  quality_score <- assess_data_quality ;;
  if Qltb success_rate (4 # 5) then adjust_strategy else ret tt.

(** The float [self.base_delay * self.delay_multiplier * jitter]: a finite
    number of seconds, an infinity, or NaN. *)
Inductive sleep_arg : Type :=
| Finite (seconds : Q)
| Infinite
| NotANumber.

(** The float multiplier is [inf] once the exact one reaches 2^1024. *)
Definition multiplier_overflowed (s : Agent) : bool :=
  negb (Qltb (Qabs (delay_multiplier s)) (inject_Z (2 ^ 1024))).

(** With the multiplier at [inf] the product is NaN when [base_delay] or the
    jitter is 0 and an infinity otherwise. *)
Definition sleep_length (jitter : Q) (s : Agent) : sleep_arg :=
  if multiplier_overflowed s then
    if Qeq_bool (base_delay s * jitter) 0 then NotANumber else Infinite
  else Finite (base_delay s * delay_multiplier s * jitter).

(** [time.sleep(delay)]: NaN is a ValueError; a length whose nanoseconds do
    not fit in 64 bits, an infinity included, is an OverflowError; a negative
    length is a ValueError; otherwise it sleeps and returns. *)
Definition time_sleep (delay : sleep_arg) : result unit :=
  match delay with
  | NotANumber => Err ValueError
  | Infinite => Err OverflowError
  | Finite seconds =>
      if Qltb (Qabs seconds * inject_Z (10 ^ 9)) (inject_Z (2 ^ 63)) then
        if Qltb seconds 0 then Err ValueError else Ok tt
      else Err OverflowError
  end.

(** [jitter] is what [random.uniform(0.5, 1.5)] returns; no field is
    written. *)
Definition respectful_delay (jitter : Q) : M unit :=
  fun s => lift (time_sleep (sleep_length jitter s)) s.

Definition collection_complete (s : Agent) : bool :=
  max_requests s <=? total_requests (collection_stats s).

(** Lines 97-98 of [run_collection]: store the batch if it validates. *)
Definition store_if_valid (processed : list dict) : M unit :=
  if validate_data processed then store_data processed else ret tt.

(** Lines 95-98: [if data:] process it, then store what validates. *)
Definition handle_batch (data : json) : M unit :=
  if truthy data then
    processed <- lift (process_data data) ;;
    store_if_valid processed
  else ret tt.

(** The body of the [while] loop, given what this iteration's GET does and
    the jitter it draws. *)
Definition iteration (r : http_result) (jitter : Q) : M unit :=
  data <- collect_batch r ;;
  handle_batch data ;;
  assess_performance ;;
  respectful_delay jitter.

(** [while not self.collection_complete(): ...]; [net n] is what the n-th
    GET from here on does and [rnd n] the n-th jitter drawn.  [None] only
    when the fuel runs out. *)
Fixpoint while_not_complete (fuel : nat) (net : nat -> http_result) (rnd : nat -> Q)
  (s : Agent) : option (outcome unit) :=
  if collection_complete s then Some (Return tt s)
  else
    match fuel with
    | O => None
    | S fuel' =>
        match iteration (net O) (rnd O) s with
        | Return _ s' =>
            while_not_complete fuel' (fun n => net (S n)) (fun n => rnd (S n)) s'
        | Raise e s' => Some (Raise e s')
        end
    end.

(** How a run that raised nothing ended: by the early [return] after a
    failed token request, or through [generate_final_report]. *)
Inductive run_status : Type :=
| ABORTED
| COMPLETE.

Definition run_collection (fuel : nat) (tok : http_result) (net : nat -> http_result)
  (rnd : nat -> Q) (s : Agent) : option (outcome run_status) :=
  let token := get_token tok in
  if negb (truthy token) then Some (Return ABORTED s)
  else
    match while_not_complete fuel net rnd s with
    | Some (Return _ s') => Some (Return COMPLETE s')
    | Some (Raise e s') => Some (Raise e s')
    | None => None
    end.

(** ** Vocabulary of the properties *)

(** The agent a call leaves behind, returned or raised. *)
Definition final_state {A : Type} (o : outcome A) : Agent :=
  match o with
  | Return _ s => s
  | Raise _ s => s
  end.

(** States between iterations of the loop started in [s0]: an iteration runs
    only while the guard of the [while] holds, and is complete when it
    returns. *)
Inductive reachable (s0 : Agent) : Agent -> Prop :=
| reach_start : reachable s0 s0
| reach_iteration (s : Agent) (r : http_result) (jitter : Q) (s' : Agent) :
    reachable s0 s ->
    collection_complete s = false ->
    iteration r jitter s = Return tt s' ->
    reachable s0 s'.

(** Fields a step leaves alone. *)
Definition same_counters (s s' : Agent) : Prop :=
  total_requests (collection_stats s') = total_requests (collection_stats s)
  /\ successful_requests (collection_stats s') = successful_requests (collection_stats s)
  /\ failed_requests (collection_stats s') = failed_requests (collection_stats s).

Definition same_config (s s' : Agent) : Prop :=
  base_delay s' = base_delay s /\ max_requests s' = max_requests s.

(** The quality score in the words of the specification: the number of
    records with both required fields over the number of records, and 0 for
    no records. *)
Definition count_complete (records : list dict) : nat :=
  List.length (filter (fun d => dict_in "name" d && dict_in "artist" d) records).

Definition score_spec (records : list dict) : Q :=
  match records with
  | [] => 0%Q
  | _ :: _ =>
      (inject_Z (Z.of_nat (count_complete records))
       / inject_Z (Z.of_nat (List.length records)))%Q
  end.

(** A raw item with every sub-field [process_item] takes apart: a dict with
    'name', 'id' and a list 'artists' whose first element is a dict with
    'name'. *)
Definition item_ok (a : json) : bool :=
  match a with
  | JObj o =>
      dict_in "name" o
      && match dict_get "artists" o with
         | Some (JList (JObj artist0 :: _)) => dict_in "name" artist0
         | _ => false
         end
      && dict_in "id" o
  | _ => false
  end.

(** The GET answers 200 with a truthy payload on which [process_data]
    raises. *)
Definition transform_raises (r : http_result) : bool :=
  match r with
  | Response status_code (Some v) =>
      (status_code =? 200) && truthy v
      && match process_data v with Ok _ => false | Err _ => true end
  | _ => false
  end.

(** The counter equation of the statistics. *)
Definition counters_balanced (s : Agent) : Prop :=
  successful_requests (collection_stats s) + failed_requests (collection_stats s)
  = total_requests (collection_stats s).

(** A 200 response whose body [response.json()] cannot decode. *)
Definition undecodable_200 (r : http_result) : bool :=
  match r with
  | Response status_code None => status_code =? 200
  | _ => false
  end.

(** Sample data: a raw album item, a new-releases payload, and a token
    response. *)
Definition sample_item (name artist id : string) : json :=
  JObj [("name", JStr name);
        ("artists", JList [JObj [("name", JStr artist)]]);
        ("id", JStr id)].

Definition sample_payload (items : list json) : json :=
  JObj [("albums", JObj [("items", JList items)])].

Definition token_ok : http_result :=
  Response 200 (Some (JObj [("access_token", JStr "BQD")])).

(** ** The rest of the agent *)

(** Every sleep of a run is accepted as long as the multiplier is at most
    2 to the power [bound]: [base_delay] is not negative, the jitters come
    from [0.5, 1.5], the float multiplier is finite, and the longest such
    sleep fits the nanosecond clock of [time.sleep]. *)
Definition sleeps_accepted (base : Q) (bound : Z) (rnd : nat -> Q) : Prop :=
  (0 <= base)%Q
  /\ (forall n, (1 # 2 <= rnd n)%Q /\ (rnd n <= 3 # 2)%Q)
  /\ bound < 1024
  /\ (base * inject_Z (2 ^ bound) * (3 # 2) * inject_Z (10 ^ 9) < inject_Z (2 ^ 63))%Q.

(** What holds of the agent throughout a run started fresh with [base] and
    [max]: the configuration is kept, and the multiplier is between 1 and 2
    to the power [total_requests]. *)
Definition in_run (base : Q) (max : Z) (s : Agent) : Prop :=
  base_delay s = base
  /\ max_requests s = max
  /\ 0 <= total_requests (collection_stats s)
  /\ (1 <= delay_multiplier s)%Q
  /\ (delay_multiplier s <= inject_Z (2 ^ total_requests (collection_stats s)))%Q.

(** The token response the endpoint must give for [collect_data] of the
    simulated agent to start: a body that decodes to a dict with
    'access_token'. *)
Definition token_response_ok (r : http_result) : bool :=
  match r with
  | Response _ (Some (JObj o)) => dict_in "access_token" o
  | _ => false
  end.

(** The GET is counted as a failure only: a transport error or a status
    other than 200. *)
Definition request_fails (r : http_result) : bool :=
  match r with
  | TransportError => true
  | Response status_code _ => negb (status_code =? 200)
  end.

(** The GET answers 200 with a body that decodes. *)
Definition request_succeeds (r : http_result) : bool :=
  match r with
  | Response status_code (Some _) => status_code =? 200
  | _ => false
  end.

(** A processed record carries the item's name, its first artist's name and
    its id. *)
Definition record_of_item (a : json) (d : dict) : Prop :=
  exists o artist0 rest,
    a = JObj o
    /\ dict_get "artists" o = Some (JList (JObj artist0 :: rest))
    /\ dict_get "name" d = dict_get "name" o
    /\ dict_get "artist" d = dict_get "name" artist0
    /\ dict_get "id" d = dict_get "id" o
    /\ map fst d = ["name"; "artist"; "id"].

(** ** The simulated agent and its reports (spotify_agent_with_reports.py) *)

Module Reports.

(** What can end [collect_data]: [post] raising, [result.json()] raising, or
    the subscript [["access_token"]] raising. *)
Inductive error : Type :=
| RequestException
| JSONDecodeError
| Builtin (e : exn).

(** [collection_stats]; the set [apis_used] is a list without duplicates. *)
Record Stats : Type := mkStats {
  total_requests : Z;
  successful_requests : Z;
  failed_requests : Z;
  quality_scores : list Q;
  apis_used : set string
}.

Record Agent : Type := mkAgent {
  data_store : list dict;
  collection_stats : Stats;
  delay_multiplier : Q
}.

Inductive outcome (A : Type) : Type :=
| Return (a : A) (s : Agent)
| Raise (e : error) (s : Agent).
Arguments Return {A} a s.
Arguments Raise {A} e s.

Definition final_state {A : Type} (o : outcome A) : Agent :=
  match o with
  | Return _ s => s
  | Raise _ s => s
  end.

(** [__init__] *)
Definition init : Agent := mkAgent [] (mkStats 0 0 0 [] (empty_set string)) 1%Q.

Definition add_api (name : string) (s : Agent) : Agent :=
  let c := collection_stats s in
  mkAgent (data_store s)
          (mkStats (total_requests c) (successful_requests c) (failed_requests c)
                   (quality_scores c) (set_add string_dec name (apis_used c)))
          (delay_multiplier s).

(** No [try] here and no [raise_for_status]: whatever raises leaves
    [collect_data]. *)
Definition get_token (r : http_result) (s : Agent) : outcome json :=
  match r with
  | TransportError => Raise RequestException s
  | Response _ body =>
      let s' := add_api "Spotify API /token" s in
      match body with
      | None => Raise JSONDecodeError s'
      | Some v =>
          match py_getitem_str v "access_token" with
          | Ok token => Return token s'
          | Err e => Raise (Builtin e) s'
          end
      end
  end.

(** [f"{i}"] for an index of [range(n)]. *)
Definition str_of_nat (i : nat) : string :=
  NilEmpty.string_of_uint (Nat.to_uint i).

Definition make_item (i : nat) : dict :=
  [("name", JStr (String.append "Song " (str_of_nat i)));
   ("artist", JStr (String.append "Artist " (str_of_nat i)));
   ("id", JStr (String.append "id_" (str_of_nat i)))].

(** The body of [for i in range(n)]. *)
Definition collect_step (s : Agent) (i : nat) : Agent :=
  let c := collection_stats s in
  mkAgent (data_store s ++ [make_item i])%list
          (mkStats (total_requests c + 1) (successful_requests c + 1)
                   (failed_requests c) (quality_scores c ++ [1%Q])%list (apis_used c))
          (delay_multiplier s).

(** [range(n)] is empty for [n <= 0]. *)
Definition collect_data (r : http_result) (n : Z) (s : Agent) : outcome unit :=
  match get_token r s with
  | Return _ s' => Return tt (fold_left collect_step (seq 0 (Z.to_nat n)) s')
  | Raise e s' => Raise e s'
  end.

(** [sum] of a sequence of floats. *)
Definition py_sum_floats (l : list Q) : Q := fold_left Qplus l 0%Q.

(** [sum(quality_scores) / max(len(quality_scores), 1)] *)
Definition average_quality_score (c : Stats) : Q :=
  (py_sum_floats (quality_scores c)
   / inject_Z (Z.max (Z.of_nat (List.length (quality_scores c))) 1))%Q.

(** The computed entries of the metadata document; the date, the version,
    the collector and the glossary are constants of the source. *)
Record Metadata : Type := mkMetadata {
  md_total_records : Z;
  md_data_sources : list string;
  md_average_quality_score : Q;
  md_processing_history : Stats
}.

Definition generate_metadata (store : list dict) (c : Stats) : Metadata :=
  mkMetadata (Z.of_nat (List.length store)) (apis_used c)
             (average_quality_score c) c.

(** [==] on decoded JSON: None equals only None, booleans and numbers
    compare as numbers, lists element by element, dicts key by key. *)
Fixpoint py_eq (a b : json) : bool :=
  match a, b with
  | JNull, JNull => true
  | JBool x, JBool y => Bool.eqb x y
  | JBool x, JNum q => Qeq_bool (if x then 1 else 0) q
  | JNum p, JBool y => Qeq_bool p (if y then 1 else 0)
  | JNum p, JNum q => Qeq_bool p q
  | JStr s, JStr t => String.eqb s t
  | JList l, JList m =>
      (fix eq_list (l : list json) (m : list json) : bool :=
         match l, m with
         | [], [] => true
         | x :: l', y :: m' => py_eq x y && eq_list l' m'
         | _, _ => false
         end) l m
  | JObj o, JObj p =>
      (List.length o =? List.length p)%nat
      && (fix eq_items (o : list (string * json)) : bool :=
            match o with
            | [] => true
            | (k, v) :: o' =>
                match dict_get k p with
                | Some w => py_eq v w && eq_items o'
                | None => false
                end
            end) o
  | _, _ => false
  end.

(** Lists and dicts cannot be dict keys. *)
Definition hashable (v : json) : bool :=
  match v with
  | JList _ | JObj _ => false
  | _ => true
  end.

(** A Python dict with arbitrary hashable keys and int values, as its items
    in insertion order. *)
Definition counts : Type := list (json * Z).

Fixpoint counts_get (k : json) (d : counts) : option Z :=
  match d with
  | [] => None
  | (k', v) :: d' => if py_eq k' k then Some v else counts_get k d'
  end.

(** [d[k] = v]: an equal key keeps its place and takes the new value. *)
Fixpoint counts_set (k : json) (v : Z) (d : counts) : counts :=
  match d with
  | [] => [(k, v)]
  | (k', v') :: d' =>
      if py_eq k' k then (k', v) :: d' else (k', v') :: counts_set k v d'
  end.

(** [x[k]] on a record of the store. *)
Definition record_getitem (x : dict) (k : string) : result json :=
  match dict_get k x with
  | Some v => Ok v
  | None => Err KeyError
  end.

(** [sum(1 for x in data_store if x['artist'] == key)] *)
Definition artist_count (store : list dict) (key : json) : result Z :=
  rbind (comprehension
           (fun x => rbind (record_getitem x "artist") (fun a => Ok (py_eq a key)))
           store)
        (fun hits => Ok (py_sum (map (fun _ => 1) (filter (fun b : bool => b) hits)))).

(** The dict comprehension of 'data_distribution': for each record the key,
    then the value, then the insertion, which hashes the key. *)
Fixpoint distribution_from (store todo : list dict) (acc : counts) : result counts :=
  match todo with
  | [] => Ok acc
  | d :: rest =>
      rbind (record_getitem d "artist") (fun key =>
      rbind (artist_count store key) (fun n =>
      if hashable key then distribution_from store rest (counts_set key n acc)
      else Err TypeError))
  end.

Definition data_distribution (store : list dict) : result counts :=
  distribution_from store store [].

(** [[d for d in data_store if "name" not in d or "artist" not in d]] *)
Definition anomalies (store : list dict) : list dict :=
  filter (fun d => negb (dict_in "name" d) || negb (dict_in "artist" d)) store.

(** [sum(1 for d in data_store if "name" in d and "artist" in d)] *)
Definition complete_count (store : list dict) : Z :=
  py_sum (map (fun _ => 1) (filter (fun d => dict_in "name" d && dict_in "artist" d) store)).

(** The computed entries of the quality report; the recommendations are
    constants. *)
Record QualityReport : Type := mkQualityReport {
  qr_total_records : Z;
  qr_collection_success_rate : Q;
  qr_overall_quality_score : Q;
  qr_complete_records : Z;
  qr_completeness_ratio : Q;
  qr_data_distribution : counts;
  qr_anomaly_detection : list dict
}.

(** The report built before it is written to the file; the entries of the
    dict display are evaluated in order. *)
Definition generate_quality_report (store : list dict) (c : Stats) : result QualityReport :=
  let total := Z.of_nat (List.length store) in
  let complete := complete_count store in
  let rate := (inject_Z (successful_requests c)
               / inject_Z (Z.max (total_requests c) 1))%Q in
  let ratio := (inject_Z complete / inject_Z (Z.max total 1))%Q in
  rbind (data_distribution store) (fun dist =>
  Ok (mkQualityReport total rate ratio complete ratio dist (anomalies store))).

Record Summary : Type := mkSummary {
  sm_total_data_points : Z;
  sm_success_requests : Z;
  sm_failed_requests : Z;
  sm_average_quality_score : Q;
  sm_issues_encountered : list dict
}.

Definition generate_collection_summary (store : list dict) (c : Stats) : Summary :=
  mkSummary (Z.of_nat (List.length store)) (successful_requests c) (failed_requests c)
            (average_quality_score c) (anomalies store).

End Reports.

(** The record's 'artist' is the string [a]. *)
Definition by_artist (a : string) (d : dict) : bool :=
  match dict_get "artist" d with
  | Some (JStr b) => String.eqb b a
  | _ => false
  end.

(** How many records of the store are by artist [a]. *)
Definition records_by (a : string) (store : list dict) : nat :=
  List.length (filter (by_artist a) store).

(** The values of a dict of counts, added up. *)
Definition counts_total (d : Reports.counts) : Z :=
  fold_right Z.add 0 (map snd d).

(** ** Arithmetic of rates and scores *)

Lemma Qltb_true (x y : Q) : Qltb x y = true <-> (x < y)%Q.
Proof.
  unfold Qltb. rewrite negb_true_iff. split.
  - intros H. apply Qnot_le_lt. intros Hle.
    apply Qle_bool_iff in Hle. congruence.
  - intros H. destruct (Qle_bool y x) eqn:E; [| reflexivity].
    apply Qle_bool_iff in E. exfalso. exact (Qlt_not_le _ _ H E).
Qed.

Lemma Qltb_false (x y : Q) : Qltb x y = false <-> (y <= x)%Q.
Proof.
  unfold Qltb. rewrite negb_false_iff. apply Qle_bool_iff.
Qed.

Lemma fold_add_ones {A : Type} (l : list A) (acc : Z) :
  fold_left Z.add (map (fun _ => 1) l) acc = acc + Z.of_nat (List.length l).
Proof.
  revert acc. induction l as [| a l IH]; intros acc.
  - simpl. lia.
  - cbn [map fold_left List.length]. rewrite IH. lia.
Qed.

Lemma py_sum_ones {A : Type} (l : list A) :
  py_sum (map (fun _ => 1) l) = Z.of_nat (List.length l).
Proof.
  unfold py_sum. rewrite fold_add_ones. lia.
Qed.

Lemma count_complete_le (records : list dict) :
  (count_complete records <= List.length records)%nat.
Proof.
  unfold count_complete. apply filter_length_le.
Qed.

(** A quotient of naturals [c / n] with [c <= n] and [0 < n] lies in [0,1]. *)
Lemma ratio_in_unit_interval (c n : nat) :
  (c <= n)%nat -> (0 < n)%nat ->
  (0 <= inject_Z (Z.of_nat c) / inject_Z (Z.of_nat n)
   /\ inject_Z (Z.of_nat c) / inject_Z (Z.of_nat n) <= 1)%Q.
Proof.
  intros Hcn Hn.
  assert (Hpos : (0 < inject_Z (Z.of_nat n))%Q).
  { change 0%Q with (inject_Z 0). rewrite <- Zlt_Qlt. lia. }
  split.
  - apply Qle_shift_div_l; [exact Hpos |].
    rewrite Qmult_0_l. change 0%Q with (inject_Z 0). rewrite <- Zle_Qle. lia.
  - apply Qle_shift_div_r; [exact Hpos |].
    rewrite Qmult_1_l. rewrite <- Zle_Qle. lia.
Qed.

Lemma ratio_self (n : nat) :
  (0 < n)%nat -> (inject_Z (Z.of_nat n) / inject_Z (Z.of_nat n) == 1)%Q.
Proof.
  intros Hn. apply Qmult_inv_r.
  intros H. unfold Qeq in H. simpl in H. lia.
Qed.

(** The success rate never exceeds what the counters give: below 4/5 it is
    not above 9/10. *)
Lemma below_guard_not_above (x : Q) :
  Qltb x (4 # 5) = true -> Qltb (9 # 10) x = false.
Proof.
  intros H. apply Qltb_true in H. apply Qltb_false.
  apply Qlt_le_weak. eapply Qlt_trans; [exact H |]. reflexivity.
Qed.

Lemma below_half_below_guard (x : Q) :
  Qltb x (1 # 2) = true -> Qltb x (4 # 5) = true.
Proof.
  intros H. apply Qltb_true in H. apply Qltb_true.
  eapply Qlt_trans; [exact H |]. reflexivity.
Qed.

(** ** What each method does to the agent *)

Lemma collect_batch_effect (r : http_result) (s : Agent) :
  exists v s',
    collect_batch r s = Return v s'
    /\ data_store s' = data_store s
    /\ delay_multiplier s' = delay_multiplier s
    /\ same_config s s'
    /\ quality_scores (collection_stats s') = quality_scores (collection_stats s)
    /\ total_requests (collection_stats s') = total_requests (collection_stats s) + 1.
Proof.
  unfold collect_batch, bind, modify, ret, same_config.
  destruct r as [| status_code [v |]]; cbn -[Z.add];
    try destruct (status_code =? 200); cbn -[Z.add];
    eexists; eexists; repeat split; reflexivity.
Qed.

Lemma assess_data_quality_empty (s : Agent) :
  data_store s = [] -> assess_data_quality s = Return 0%Q s.
Proof.
  intros H. unfold assess_data_quality, bind, gets. rewrite H. reflexivity.
Qed.

Lemma assess_data_quality_nonempty (s : Agent) :
  data_store s <> [] ->
  assess_data_quality s =
    Return (score_spec (data_store s))
           (with_stats (append_score (score_spec (data_store s))) s).
Proof.
  intros H. unfold assess_data_quality, bind, gets, modify, ret, score_spec.
  destruct (data_store s) as [| d store] eqn:E; [congruence |].
  rewrite py_sum_ones. reflexivity.
Qed.

Lemma assess_data_quality_effect (s : Agent) :
  exists q s',
    assess_data_quality s = Return q s'
    /\ data_store s' = data_store s
    /\ delay_multiplier s' = delay_multiplier s
    /\ same_config s s'
    /\ same_counters s s'.
Proof.
  unfold same_config, same_counters.
  destruct (data_store s) as [| d store] eqn:E.
  - rewrite (assess_data_quality_empty s E).
    eexists; eexists; repeat split; assumption.
  - rewrite assess_data_quality_nonempty by (rewrite E; discriminate).
    eexists; eexists; repeat split; assumption.
Qed.

Lemma success_rate_counters (s s' : Agent) :
  same_counters s s' -> success_rate s' = success_rate s.
Proof.
  intros (Ht & Hs & _). unfold success_rate. rewrite Ht, Hs. reflexivity.
Qed.

(** [adjust_strategy], branch by branch. *)
Lemma adjust_strategy_effect (s : Agent) :
  adjust_strategy s =
    Return tt
      (if Qltb (success_rate s) (1 # 2) then
         with_delay_multiplier (fun m => m * 2)%Q s
       else if Qltb (9 # 10) (success_rate s) then
         with_delay_multiplier (fun m => m * (4 # 5))%Q s
       else s).
Proof.
  unfold adjust_strategy, bind, get_success_rate, gets, modify, ret.
  destruct (Qltb (success_rate s) (1 # 2)); [reflexivity |].
  destruct (Qltb (9 # 10) (success_rate s)); reflexivity.
Qed.

(** [assess_performance] returns, touches neither the store nor the
    counters, and leaves the multiplier as it is or doubled. *)
Lemma assess_performance_effect (s : Agent) :
  exists s',
    assess_performance s = Return tt s'
    /\ data_store s' = data_store s
    /\ same_config s s'
    /\ same_counters s s'
    /\ delay_multiplier s' =
         (if Qltb (success_rate s) (1 # 2) then (delay_multiplier s * 2)%Q
          else delay_multiplier s).
Proof.
  destruct (assess_data_quality_effect s) as (q & s1 & Hq & Hstore & Hdm & Hcfg & Hcnt).
  unfold assess_performance, bind, get_success_rate, gets.
  rewrite Hq. cbn beta iota.
  destruct (Qltb (success_rate s) (4 # 5)) eqn:Hguard.
  - rewrite adjust_strategy_effect, (success_rate_counters s s1 Hcnt).
    destruct (Qltb (success_rate s) (1 # 2)) eqn:Hlow.
    + eexists; split; [reflexivity |]. cbn. rewrite Hdm. tauto.
    + rewrite (below_guard_not_above _ Hguard).
      eexists; split; [reflexivity |]. tauto.
  - assert (Hlow : Qltb (success_rate s) (1 # 2) = false).
    { destruct (Qltb (success_rate s) (1 # 2)) eqn:E; [| reflexivity].
      apply below_half_below_guard in E. congruence. }
    rewrite Hlow. eexists; split; [reflexivity |]. tauto.
Qed.

(** [handle_batch] either stores a whole batch that [process_data] returned,
    or stores nothing; it raises exactly when [process_data] does. *)
Lemma handle_batch_effect (v : json) (s : Agent) :
  match handle_batch v s with
  | Return _ s' =>
      s' = s
      \/ exists batch,
           process_data v = Ok batch
           /\ validate_data batch = true
           /\ s' = with_data_store (fun store => (store ++ batch)%list) s
  | Raise e s' =>
      s' = s /\ truthy v = true /\ process_data v = Err e
  end.
Proof.
  unfold handle_batch, bind, lift, store_if_valid, store_data, modify, ret.
  destruct (truthy v); [| left; reflexivity].
  destruct (process_data v) as [batch | e]; [| auto].
  destruct (validate_data batch) eqn:Hv; [| left; reflexivity].
  right. exists batch. auto.
Qed.

Lemma handle_batch_frame (v : json) (s : Agent) :
  let s' := final_state (handle_batch v s) in
  collection_stats s' = collection_stats s
  /\ delay_multiplier s' = delay_multiplier s
  /\ same_config s s'.
Proof.
  pose proof (handle_batch_effect v s) as H.
  destruct (handle_batch v s) as [[] s' | e s']; cbn.
  - destruct H as [-> | (batch & _ & _ & ->)]; unfold same_config; auto.
  - destruct H as (-> & _); unfold same_config; auto.
Qed.

(** The sleep writes nothing, and raises what [time.sleep] raises. *)
Lemma respectful_delay_cases (jitter : Q) (s : Agent) :
  (time_sleep (sleep_length jitter s) = Ok tt
   /\ respectful_delay jitter s = Return tt s)
  \/ exists e,
       time_sleep (sleep_length jitter s) = Err e
       /\ respectful_delay jitter s = Raise e s.
Proof.
  unfold respectful_delay, lift.
  destruct (time_sleep (sleep_length jitter s)) as [[] | e]; eauto.
Qed.

Lemma respectful_delay_state (jitter : Q) (s : Agent) :
  final_state (respectful_delay jitter s) = s.
Proof.
  destruct (respectful_delay_cases jitter s) as [(_ & ->) | (e & _ & ->)]; reflexivity.
Qed.

(** The four calls of an iteration: the request, the batch, the assessment
    and the sleep; the batch and the sleep are the two that can raise. *)
Lemma iteration_phases (r : http_result) (jitter : Q) (s : Agent) :
  exists v s1,
    collect_batch r s = Return v s1
    /\ match handle_batch v s1 with
       | Raise e s2 => iteration r jitter s = Raise e s2
       | Return _ s2 =>
           exists s3,
             assess_performance s2 = Return tt s3
             /\ iteration r jitter s = respectful_delay jitter s3
       end.
Proof.
  destruct (collect_batch_effect r s) as (v & s1 & Hc & _).
  exists v, s1. split; [exact Hc |].
  unfold iteration, bind. rewrite Hc.
  destruct (handle_batch v s1) as [[] s2 | e s2]; [| reflexivity].
  destruct (assess_performance_effect s2) as (s3 & Ha & _).
  exists s3. rewrite Ha. auto.
Qed.

(** An iteration, seen from outside: one more request; the store kept or
    extended by one validated batch; the multiplier kept or doubled. *)
Lemma iteration_effect (r : http_result) (jitter : Q) (s : Agent) :
  let s' := final_state (iteration r jitter s) in
  total_requests (collection_stats s') = total_requests (collection_stats s) + 1
  /\ same_config s s'
  /\ (data_store s' = data_store s
      \/ exists v batch,
           process_data v = Ok batch
           /\ validate_data batch = true
           /\ data_store s' = (data_store s ++ batch)%list)
  /\ (delay_multiplier s' = delay_multiplier s
      \/ delay_multiplier s' = (delay_multiplier s * 2)%Q).
Proof.
  destruct (collect_batch_effect r s) as (v & s1 & Hc & Hst1 & Hdm1 & Hcfg1 & _ & Ht1).
  destruct (iteration_phases r jitter s) as (v' & s1' & Hc' & Hph).
  rewrite Hc in Hc'. injection Hc' as <- <-.
  pose proof (handle_batch_effect v s1) as Hh.
  pose proof (handle_batch_frame v s1) as Hf.
  destruct (handle_batch v s1) as [[] s2 | e s2]; cbn in Hf; cbv zeta.
  - destruct Hf as (Hcs2 & Hdm2 & Hcfg2).
    destruct Hph as (s3 & Ha & ->). rewrite respectful_delay_state.
    destruct (assess_performance_effect s2) as (s3' & Ha' & Hst3 & Hcfg3 & Hcnt3 & Hdm3).
    rewrite Ha in Ha'. injection Ha' as <-.
    destruct Hcnt3 as (Ht3 & _).
    unfold same_config in *.
    repeat split.
    + rewrite Ht3, Hcs2. exact Ht1.
    + destruct Hcfg1, Hcfg2, Hcfg3. congruence.
    + destruct Hcfg1, Hcfg2, Hcfg3. congruence.
    + destruct Hh as [-> | (batch & Hp & Hv & ->)].
      * left. congruence.
      * right. exists v, batch. repeat split; try assumption.
        rewrite Hst3. cbn. rewrite Hst1. reflexivity.
    + rewrite Hdm3, Hdm2, Hdm1.
      destruct (Qltb (success_rate s2) (1 # 2)); auto.
  - destruct Hf as (Hcs2 & Hdm2 & Hcfg2).
    rewrite Hph. cbn [final_state].
    destruct Hh as (-> & _).
    unfold same_config in *.
    repeat split; try tauto; auto.
Qed.

(** ** The loop *)

Section Loop.

Implicit Types (fuel : nat) (net : nat -> http_result) (rnd : nat -> Q) (s : Agent).

(** The loop ends within [max_requests - total_requests] iterations: by
    its guard, with the counter at the ceiling (or where it already was,
    if beyond), or by an exception of an iteration that began below the
    ceiling. *)
Lemma while_not_complete_terminates fuel : forall net rnd s,
  (Z.to_nat (max_requests s - total_requests (collection_stats s)) <= fuel)%nat ->
  exists o,
    while_not_complete fuel net rnd s = Some o
    /\ max_requests (final_state o) = max_requests s
    /\ match o with
       | Return _ s' =>
           total_requests (collection_stats s')
           = Z.max (total_requests (collection_stats s)) (max_requests s)
       | Raise _ s' =>
           total_requests (collection_stats s) < total_requests (collection_stats s')
           /\ total_requests (collection_stats s') <= max_requests s
       end.
Proof.
  induction fuel as [| fuel IH]; intros net rnd s Hfuel; cbn [while_not_complete];
    unfold collection_complete; destruct (Z.leb_spec (max_requests s)
      (total_requests (collection_stats s))) as [Hdone | Hrun].
  - exists (Return tt s). cbn. repeat split. lia.
  - lia.
  - exists (Return tt s). cbn. repeat split. lia.
  - pose proof (iteration_effect (net O) (rnd O) s) as (Ht & (_ & Hmax) & _).
    destruct (iteration (net O) (rnd O) s) as [[] s1 | e s1]; cbn in Ht, Hmax.
    + destruct (IH (fun n => net (S n)) (fun n => rnd (S n)) s1) as (o & Ho & Hmax' & Hfin); [lia |].
      exists o. split; [exact Ho |]. split; [congruence |].
      destruct o as [[] s' | e s']; rewrite Hmax, Ht in Hfin; lia.
    + exists (Raise e s1). cbn. repeat split; lia.
Qed.

(** More fuel does not change what the loop does. *)
Lemma while_not_complete_fuel_monotone fuel : forall fuel' net rnd s o,
  (fuel <= fuel')%nat ->
  while_not_complete fuel net rnd s = Some o ->
  while_not_complete fuel' net rnd s = Some o.
Proof.
  induction fuel as [| fuel IH]; intros fuel' net rnd s o Hle;
    destruct fuel' as [| fuel']; cbn [while_not_complete];
    destruct (collection_complete s); try discriminate; try lia; auto.
  destruct (iteration (net O) (rnd O) s) as [[] s1 | e s1]; [| auto].
  apply IH. lia.
Qed.

(** The states the loop passes through are those of [reachable]. *)
Lemma while_not_complete_reachable (s0 : Agent) fuel : forall net rnd s o,
  reachable s0 s ->
  while_not_complete fuel net rnd s = Some o ->
  match o with
  | Return _ s' => reachable s0 s'
  | Raise e s' =>
      exists s1 r jitter,
        reachable s0 s1 /\ collection_complete s1 = false
        /\ iteration r jitter s1 = Raise e s'
  end.
Proof.
  induction fuel as [| fuel IH]; intros net rnd s o Hreach; cbn [while_not_complete];
    destruct (collection_complete s) eqn:Hguard; try discriminate.
  - intros [= <-]. exact Hreach.
  - intros [= <-]. exact Hreach.
  - destruct (iteration (net O) (rnd O) s) as [[] s1 | e s1] eqn:Hit.
    + apply IH. exact (reach_iteration s0 s (net O) (rnd O) s1 Hreach Hguard Hit).
    + intros [= <-]. exists s, (net O), (rnd O). auto.
Qed.

End Loop.

(** ** Invariants of the reachable states *)

Lemma reachable_trans (s0 s1 s2 : Agent) :
  reachable s0 s1 -> reachable s1 s2 -> reachable s0 s2.
Proof.
  intros H01 H12. induction H12 as [| s r j s' _ IH Hguard Hit].
  - exact H01.
  - exact (reach_iteration s0 s r j s' IH Hguard Hit).
Qed.



Lemma Q_le_double (a : Q) : (0 <= a -> a <= a * 2)%Q.
Proof.
  destruct a as [n d]. unfold Qle, Qmult. cbn [Qnum Qden].
  rewrite Pos.mul_1_r. lia.
Qed.

Lemma Q_double_nonneg (a : Q) : (0 <= a -> 0 <= a * 2)%Q.
Proof.
  intros H. eapply Qle_trans; [exact H | exact (Q_le_double a H)].
Qed.

Lemma reachable_delay_nonneg (s0 s : Agent) :
  (0 <= delay_multiplier s0)%Q -> reachable s0 s -> (0 <= delay_multiplier s)%Q.
Proof.
  intros H0. induction 1 as [| s r j s' _ IH _ Hit].
  - exact H0.
  - pose proof (iteration_effect r j s) as (_ & _ & _ & Hdm).
    rewrite Hit in Hdm. cbn in Hdm.
    destruct Hdm as [-> | ->]; [exact IH | exact (Q_double_nonneg _ IH)].
Qed.

(** ** The transformation of a payload *)

Lemma comprehension_length {A B : Type} (f : A -> result B) (l : list A) :
  forall bs, comprehension f l = Ok bs -> List.length bs = List.length l.
Proof.
  induction l as [| a l IH]; intros bs; cbn [comprehension].
  - intros [= <-]. reflexivity.
  - destruct (f a) as [b | e]; cbn [rbind]; [| discriminate].
    destruct (comprehension f l) as [bs' | e]; cbn [rbind]; [| discriminate].
    intros [= <-]. cbn [List.length]. f_equal. apply IH. reflexivity.
Qed.

Lemma comprehension_forallb {A B : Type} (f : A -> result B) (P : B -> bool) :
  (forall a b, f a = Ok b -> P b = true) ->
  forall l bs, comprehension f l = Ok bs -> forallb P bs = true.
Proof.
  intros Hf. induction l as [| a l IH]; intros bs; cbn [comprehension].
  - intros [= <-]. reflexivity.
  - destruct (f a) as [b | e] eqn:Hb; cbn [rbind]; [| discriminate].
    destruct (comprehension f l) as [bs' | e]; cbn [rbind]; [| discriminate].
    intros [= <-]. cbn [forallb]. rewrite (Hf a b Hb), (IH bs' eq_refl). reflexivity.
Qed.

(** The comprehension returns when [f] returns on every element, and raises
    otherwise. *)
Lemma comprehension_all_ok {A B : Type} (f : A -> result B) (ok : A -> bool) :
  (forall a, ok a = true -> exists b, f a = Ok b) ->
  forall l, forallb ok l = true -> exists bs, comprehension f l = Ok bs.
Proof.
  intros Hf. induction l as [| a l IH]; cbn [comprehension forallb].
  - intros _. exists []. reflexivity.
  - intros H. apply andb_true_iff in H as (Ha & Hl).
    destruct (Hf a Ha) as (b & ->). destruct (IH Hl) as (bs & ->).
    exists (b :: bs). reflexivity.
Qed.

Lemma comprehension_some_err {A B : Type} (f : A -> result B) (ok : A -> bool) :
  (forall a, ok a = false -> exists e, f a = Err e) ->
  forall l, forallb ok l = false -> exists e, comprehension f l = Err e.
Proof.
  intros Hf. induction l as [| a l IH]; cbn [comprehension forallb].
  - discriminate.
  - intros H. destruct (ok a) eqn:Ha.
    + destruct (f a) as [b | e]; cbn [rbind]; [| eauto].
      destruct (IH H) as (e & ->). cbn. eauto.
    + destruct (Hf a Ha) as (e & ->). cbn. eauto.
Qed.

Lemma dict_in_get (k : string) (d : dict) :
  dict_in k d = true <-> exists v, dict_get k d = Some v.
Proof.
  unfold dict_in. destruct (dict_get k d) as [v |]; split;
    try discriminate; eauto.
  intros (v & [=]).
Qed.

Lemma process_item_ok (a : json) :
  item_ok a = true -> exists d, process_item a = Ok d.
Proof.
  destruct a as [| b | q | str | l | o]; cbn [item_ok]; try discriminate.
  intros H. apply andb_true_iff in H as (H & Hid).
  apply andb_true_iff in H as (Hname & Hartists).
  apply dict_in_get in Hname as (name & Hname).
  apply dict_in_get in Hid as (id & Hid).
  destruct (dict_get "artists" o) as [[| | | | [| [| | | | | artist0] rest] |] |] eqn:Ha;
    try discriminate.
  apply dict_in_get in Hartists as (artist & Hartist).
  unfold process_item, py_getitem_str, py_getitem_0, rbind.
  rewrite Hname, Ha, Hartist, Hid. eauto.
Qed.

Lemma process_item_err (a : json) :
  item_ok a = false -> exists e, process_item a = Err e.
Proof.
  destruct (process_item a) as [d | e] eqn:Hp; [| eauto].
  intros Hno. exfalso. revert Hp Hno.
  unfold process_item, py_getitem_str, py_getitem_0, rbind.
  destruct a as [| b | q | str | l | o]; try discriminate.
  cbn [item_ok]. unfold dict_in.
  destruct (dict_get "name" o); [| discriminate].
  destruct (dict_get "artists" o) as [[| | | [| c str] | [| [| | | | | artist0] rest] |] |];
    try discriminate.
  destruct (dict_get "name" artist0); [| discriminate].
  destruct (dict_get "id" o); discriminate.
Qed.

(** Every record [process_item] builds has 'name' and 'artist'. *)
Lemma process_item_has_required (a : json) (d : dict) :
  process_item a = Ok d -> has_required d = true.
Proof.
  unfold process_item, rbind.
  destruct (py_getitem_str a "name"); [| discriminate].
  destruct (py_getitem_str a "artists") as [artists |]; [| discriminate].
  destruct (py_getitem_0 artists) as [artist0 |]; [| discriminate].
  destruct (py_getitem_str artist0 "name"); [| discriminate].
  destruct (py_getitem_str a "id"); [| discriminate].
  intros [= <-]. reflexivity.
Qed.

Lemma process_data_validates (data : json) (batch : list dict) :
  process_data data = Ok batch -> validate_data batch = true.
Proof.
  unfold process_data, rbind, validate_data.
  destruct (py_get data "albums" (JObj [])) as [albums_obj |]; [| discriminate].
  destruct (py_get albums_obj "items" (JList [])) as [albums |]; [| discriminate].
  destruct (py_iter albums) as [items |]; [| discriminate].
  apply comprehension_forallb. exact process_item_has_required.
Qed.

(** Every stored record has both required fields. *)
Lemma reachable_store_valid (s0 s : Agent) :
  validate_data (data_store s0) = true ->
  reachable s0 s ->
  validate_data (data_store s) = true.
Proof.
  intros H0. induction 1 as [| s r j s' _ IH _ Hit].
  - exact H0.
  - pose proof (iteration_effect r j s) as (_ & _ & Hstore & _).
    rewrite Hit in Hstore. cbn in Hstore.
    destruct Hstore as [-> | (v & batch & _ & Hv & ->)]; [exact IH |].
    unfold validate_data in *. rewrite forallb_app, IH, Hv. reflexivity.
Qed.

Lemma count_complete_valid (records : list dict) :
  validate_data records = true -> count_complete records = List.length records.
Proof.
  unfold validate_data, count_complete. induction records as [| d records IH];
    cbn [forallb filter List.length]; [reflexivity |].
  intros H. apply andb_true_iff in H as (Hd & Hrest).
  unfold has_required in Hd. rewrite Hd. cbn [List.length]. f_equal. exact (IH Hrest).
Qed.

(** ** The counters *)

Lemma collect_batch_undecodable (status_code : Z) (s : Agent) :
  status_code = 200 ->
  exists s',
    collect_batch (Response status_code None) s = Return JNull s'
    /\ total_requests (collection_stats s') = total_requests (collection_stats s) + 1
    /\ successful_requests (collection_stats s')
       = successful_requests (collection_stats s) + 1
    /\ failed_requests (collection_stats s') = failed_requests (collection_stats s) + 1.
Proof.
  intros ->. unfold collect_batch, bind, modify, ret. cbn -[Z.add].
  eexists. repeat split.
Qed.

(** Apart from an undecodable 200, a request is counted once, as a success
    or as a failure. *)
Lemma collect_batch_balanced (r : http_result) (s : Agent) :
  undecodable_200 r = false ->
  counters_balanced s ->
  counters_balanced (final_state (collect_batch r s)).
Proof.
  unfold counters_balanced, collect_batch, bind, modify, ret.
  destruct r as [| status_code [v |]]; cbn -[Z.add]; intros Hr Hs;
    try destruct (status_code =? 200); cbn -[Z.add]; try discriminate; lia.
Qed.

(** Where an iteration leaves the agent, returned or raised. *)
Lemma iteration_final (r : http_result) (jitter : Q) (s : Agent) (v : json) (s1 : Agent) :
  collect_batch r s = Return v s1 ->
  final_state (iteration r jitter s)
  = match handle_batch v s1 with
    | Return _ s2 => final_state (assess_performance s2)
    | Raise _ s2 => s2
    end.
Proof.
  intros Hc. destruct (iteration_phases r jitter s) as (v' & s1' & Hc' & Hph).
  rewrite Hc in Hc'. injection Hc' as <- <-.
  destruct (handle_batch v s1) as [[] s2 | e s2].
  - destruct Hph as (s3 & -> & ->). apply respectful_delay_state.
  - rewrite Hph. reflexivity.
Qed.

(** An iteration that returns went through all four calls. *)
Lemma iteration_return (r : http_result) (jitter : Q) (s s' : Agent) :
  iteration r jitter s = Return tt s' ->
  exists v s1 s2,
    collect_batch r s = Return v s1
    /\ handle_batch v s1 = Return tt s2
    /\ assess_performance s2 = Return tt s'
    /\ time_sleep (sleep_length jitter s') = Ok tt.
Proof.
  destruct (iteration_phases r jitter s) as (v & s1 & Hc & Hph).
  destruct (handle_batch v s1) as [[] s2 | e s2] eqn:Hh.
  - destruct Hph as (s3 & Ha & ->).
    destruct (respectful_delay_cases jitter s3) as [(Hok & ->) | (e & _ & ->)];
      [| discriminate].
    intros [= <-]. exists v, s1, s2. auto.
  - rewrite Hph. discriminate.
Qed.

(** What [collect_batch] hands to the loop: the decoded body of a 200, None
    otherwise. *)
Lemma collect_batch_data (r : http_result) (s : Agent) (v : json) (s1 : Agent) :
  collect_batch r s = Return v s1 ->
  v = match r with
      | Response status_code (Some b) => if status_code =? 200 then b else JNull
      | _ => JNull
      end.
Proof.
  unfold collect_batch, bind, modify, ret.
  destruct r as [| status_code [b |]]; cbn -[Z.add];
    try destruct (status_code =? 200); cbn -[Z.add]; congruence.
Qed.

(** An iteration raises either in [process_data], on the payload of a 200,
    or in [time.sleep], on the length computed in the state it leaves. *)
Lemma iteration_raise (r : http_result) (jitter : Q) (s : Agent) (e : exn) (s' : Agent) :
  iteration r jitter s = Raise e s' ->
  (transform_raises r = true
   /\ exists v, r = Response 200 (Some v) /\ process_data v = Err e)
  \/ time_sleep (sleep_length jitter s') = Err e.
Proof.
  destruct (iteration_phases r jitter s) as (v & s1 & Hc & Hph).
  pose proof (collect_batch_data r s v s1 Hc) as Hv.
  pose proof (handle_batch_effect v s1) as Hh.
  destruct (handle_batch v s1) as [[] s2 | e2 s2].
  - destruct Hph as (s3 & _ & ->).
    destruct (respectful_delay_cases jitter s3) as [(_ & ->) | (e3 & Herr & ->)];
      [discriminate |].
    intros [= <- <-]. right. exact Herr.
  - rewrite Hph. intros [= <- <-]. left. destruct Hh as (_ & Htruthy & Hp).
    destruct r as [| status_code [b |]]; subst v; try discriminate.
    destruct (Z.eqb_spec status_code 200) as [-> |]; [| discriminate].
    cbn [transform_raises]. rewrite Htruthy, Hp. split; [reflexivity | eauto].
Qed.


Lemma iteration_balanced (r : http_result) (jitter : Q) (s : Agent) :
  undecodable_200 r = false ->
  counters_balanced s ->
  counters_balanced (final_state (iteration r jitter s)).
Proof.
  intros Hr Hs. pose proof (collect_batch_balanced r s Hr Hs) as Hb.
  destruct (collect_batch_effect r s) as (v & s1 & Hc & _).
  rewrite Hc in Hb. cbn in Hb.
  pose proof (handle_batch_frame v s1) as (Hcs & _).
  rewrite (iteration_final r jitter s v s1 Hc).
  destruct (handle_batch v s1) as [[] s2 | e s2]; cbn in Hcs.
  - destruct (assess_performance_effect s2) as (s3 & -> & _ & _ & (Ht & Hsu & Hf) & _).
    unfold final_state, counters_balanced in *.
    rewrite Ht, Hsu, Hf, Hcs. exact Hb.
  - unfold counters_balanced in *. rewrite Hcs. exact Hb.
Qed.

(** C1 (the code departs from it): the counter equation
    [successful_requests + failed_requests == total_requests] is to hold
    after every completed iteration.  On a fresh agent, an iteration whose
    GET answers 200 with a body that is not JSON completes with all three
    counters at 1: the request is counted as a success, then
    [response.json()] raises inside the [try] and it is counted as a failure
    too. *)
Theorem undecodable_200_counted_twice :
  exists s',
    iteration (Response 200 None) 1 (init 1 20) = Return tt s'
    /\ total_requests (collection_stats s') = 1
    /\ successful_requests (collection_stats s') = 1
    /\ failed_requests (collection_stats s') = 1
    /\ ~ counters_balanced s'.
Proof.
  eexists. split; [vm_compute; reflexivity |].
  unfold counters_balanced. cbn. repeat split. lia.
Qed.

(** ** Termination of the run *)

Lemma Q_pow2_step (a : Q) (t : Z) :
  0 <= t ->
  (a <= inject_Z (2 ^ t) ->
   a <= inject_Z (2 ^ (t + 1)) /\ a * 2 <= inject_Z (2 ^ (t + 1)))%Q.
Proof.
  intros Ht. rewrite Z.pow_add_r by lia. change (2 ^ 1) with 2.
  pose proof (Z.pow_pos_nonneg 2 t ltac:(lia) Ht) as Hpow.
  destruct a as [n d]. unfold Qle, Qmult, inject_Z. cbn [Qnum Qden].
  rewrite !Z.mul_1_r, ?Pos.mul_1_r. intros H. split; nia.
Qed.

Lemma Q_one_le_double (a : Q) : (1 <= a -> 1 <= a * 2)%Q.
Proof.
  intros H. eapply Qle_trans; [exact H |]. apply Q_le_double.
  eapply Qle_trans; [| exact H]. discriminate.
Qed.

Lemma in_run_init (base : Q) (max : Z) : in_run base max (init base max).
Proof.
  unfold in_run. cbn. repeat split; try lia; discriminate.
Qed.

Lemma in_run_step (base : Q) (max : Z) (r : http_result) (jitter : Q) (s : Agent) :
  in_run base max s -> in_run base max (final_state (iteration r jitter s)).
Proof.
  intros (Hb & Hm & Ht & Hlo & Hhi).
  pose proof (iteration_effect r jitter s) as (Ht' & (Hb' & Hm') & _ & Hdm).
  cbv zeta in *. destruct (Q_pow2_step _ _ Ht Hhi) as (Hsame & Hdouble).
  unfold in_run. rewrite Ht', Hb', Hm'.
  destruct Hdm as [-> | ->]; repeat split; try assumption; try lia.
  exact (Q_one_le_double _ Hlo).
Qed.

Lemma reachable_in_run (base : Q) (max : Z) (s : Agent) :
  reachable (init base max) s -> in_run base max s.
Proof.
  induction 1 as [| s r j s' _ IH _ Hit].
  - apply in_run_init.
  - pose proof (in_run_step base max r j s IH) as H. rewrite Hit in H. exact H.
Qed.

(** [time.sleep] accepts the length computed with a multiplier between 1 and
    2 to the power [bound], under the conditions of [sleeps_accepted]. *)
Lemma time_sleep_accepts (base : Q) (bound : Z) (jitter : Q) (s : Agent) :
  (0 <= base)%Q ->
  (1 # 2 <= jitter)%Q /\ (jitter <= 3 # 2)%Q ->
  bound < 1024 ->
  (base * inject_Z (2 ^ bound) * (3 # 2) * inject_Z (10 ^ 9) < inject_Z (2 ^ 63))%Q ->
  base_delay s = base ->
  (1 <= delay_multiplier s)%Q ->
  (delay_multiplier s <= inject_Z (2 ^ bound))%Q ->
  time_sleep (sleep_length jitter s) = Ok tt.
Proof.
  intros Hbase (Hjlo & Hjhi) Hbound Hfits Hb Hlo Hhi.
  assert (Hover : multiplier_overflowed s = false).
  { unfold multiplier_overflowed. apply negb_false_iff. apply Qltb_true.
    rewrite Qabs_pos by (eapply Qle_trans; [| exact Hlo]; discriminate).
    eapply Qle_lt_trans; [exact Hhi |]. rewrite <- Zlt_Qlt.
    apply Z.pow_lt_mono_r; lia. }
  unfold sleep_length. rewrite Hover, Hb. unfold time_sleep.
  set (m := delay_multiplier s) in *.
  set (P := inject_Z (2 ^ bound)) in *.
  set (K := inject_Z (10 ^ 9)) in *.
  set (L := inject_Z (2 ^ 63)) in *.
  assert (HK : (0 < K)%Q) by reflexivity.
  assert (H1 : (0 <= base * m)%Q) by nra.
  assert (H2 : (base * m <= base * P)%Q) by nra.
  assert (H3 : (0 <= base * m * jitter)%Q) by nra.
  assert (H4 : (base * m * jitter <= base * P * (3 # 2))%Q) by nra.
  assert (H5 : (base * m * jitter * K <= base * P * (3 # 2) * K)%Q) by nra.
  replace (Qltb (Qabs (base * m * jitter) * K) L) with true.
  - replace (Qltb (base * m * jitter) 0) with false; [reflexivity |].
    symmetry. apply Qltb_false. exact H3.
  - symmetry. apply Qltb_true. rewrite (Qabs_pos _ H3).
    eapply Qle_lt_trans; [exact H5 | exact Hfits].
Qed.


(** Below the ceiling, an iteration whose payload [process_data] accepts and
    whose sleep is accepted returns. *)
Lemma iteration_returns (base : Q) (max : Z) (r : http_result) (rnd : nat -> Q)
  (n : nat) (s : Agent) :
  in_run base max s ->
  sleeps_accepted base max rnd ->
  collection_complete s = false ->
  transform_raises r = false ->
  exists s',
    iteration r (rnd n) s = Return tt s'
    /\ in_run base max s'
    /\ total_requests (collection_stats s') = total_requests (collection_stats s) + 1.
Proof.
  intros Hs (Hbase & Hrnd & Hbound & Hfits) Hguard Hr.
  pose proof (in_run_step base max r (rnd n) s Hs) as Hs'.
  pose proof (iteration_effect r (rnd n) s) as (Ht & _).
  destruct (iteration r (rnd n) s) as [[] s' | e s'] eqn:Hit; cbn in Hs', Ht.
  - exists s'. auto.
  - exfalso. destruct (iteration_raise _ _ _ _ _ Hit) as [(Hraise & _) | Hsleep];
      [congruence |].
    destruct Hs as (_ & Hm & _). destruct Hs' as (Hb' & _ & Ht0 & Hlo & Hhi).
    unfold collection_complete in Hguard. rewrite Hm in Hguard.
    apply Z.leb_gt in Hguard.
    rewrite (time_sleep_accepts base max (rnd n) s' Hbase (Hrnd n) Hbound Hfits Hb' Hlo)
      in Hsleep; [discriminate |].
    eapply Qle_trans; [exact Hhi |]. rewrite <- Zle_Qle.
    apply Z.pow_le_mono_r; lia.
Qed.



(** A multiplier between 1 and [2 ^ bound], [bound < 1024], is a finite float. *)
Lemma multiplier_finite (bound : Z) (s : Agent) :
  (1 <= delay_multiplier s)%Q ->
  (delay_multiplier s <= inject_Z (2 ^ bound))%Q ->
  bound < 1024 ->
  multiplier_overflowed s = false.
Proof.
  intros Hlo Hhi Hbound. unfold multiplier_overflowed.
  apply negb_false_iff. apply Qltb_true.
  rewrite Qabs_pos by (eapply Qle_trans; [| exact Hlo]; discriminate).
  eapply Qle_lt_trans; [exact Hhi |]. rewrite <- Zlt_Qlt.
  apply Z.pow_lt_mono_r; lia.
Qed.






(** ** Transforming a payload into records *)

(** C3 (as stated, refuted): an item missing a sub-field is not skipped, the
    transformation raises: no 'name', no 'artists', no 'id' give KeyError,
    an empty 'artists' gives IndexError, and the iteration raises with it. *)
Lemma process_data_raises_on_missing_field :
  process_data (sample_payload
    [sample_item "n" "a" "1";
     JObj [("artists", JList [JObj [("name", JStr "a")]]); ("id", JStr "2")]])
  = Err KeyError
  /\ process_data (sample_payload [JObj [("name", JStr "n"); ("id", JStr "2")]])
     = Err KeyError
  /\ process_data (sample_payload
       [JObj [("name", JStr "n"); ("artists", JList []); ("id", JStr "2")]])
     = Err IndexError
  /\ process_data (sample_payload
       [JObj [("name", JStr "n"); ("artists", JList [JObj [("name", JStr "a")]])]])
     = Err KeyError
  /\ exists s',
       iteration
         (Response 200 (Some (sample_payload [JObj [("name", JStr "n"); ("id", JStr "2")]])))
         1 (init 1 20)
       = Raise KeyError s'.
Proof.
  repeat split; try (vm_compute; reflexivity).
  eexists. vm_compute. reflexivity.
Qed.

(** C3 (amended): for a payload whose [albums.items] is a list, the
    transformation returns exactly when every item has 'name', 'id' and a
    list 'artists' whose first element is a dict with 'name'; it then yields
    one record per item, none skipped.  When some item lacks one of these,
    it raises. *)
Theorem process_data_returns_iff_items_well_formed
  (o albums : dict) (items : list json) :
  dict_get "albums" o = Some (JObj albums) ->
  dict_get "items" albums = Some (JList items) ->
  (forallb item_ok items = true ->
   exists batch,
     process_data (JObj o) = Ok batch
     /\ List.length batch = List.length items
     /\ validate_data batch = true)
  /\ (forallb item_ok items = false -> exists e, process_data (JObj o) = Err e).
Proof.
  intros Halbums Hitems.
  assert (Hp : process_data (JObj o) = comprehension process_item items).
  { unfold process_data, py_get, py_iter, rbind. rewrite Halbums, Hitems. reflexivity. }
  rewrite Hp. split; intros Hall.
  - destruct (comprehension_all_ok process_item item_ok process_item_ok items Hall)
      as (batch & Hb).
    exists batch. split; [exact Hb |]. split.
    + exact (comprehension_length _ _ _ Hb).
    + apply process_data_validates with (data := JObj o). congruence.
  - exact (comprehension_some_err process_item item_ok process_item_err items Hall).
Qed.

Lemma process_data_returns_iff_items_well_formed_witness :
  (exists batch,
     process_data (sample_payload [sample_item "n" "a" "1"; sample_item "m" "b" "2"])
     = Ok batch
     /\ List.length batch = 2%nat
     /\ validate_data batch = true)
  /\ (exists e,
        process_data (sample_payload [sample_item "n" "a" "1"; JObj [("id", JStr "2")]])
        = Err e).
Proof.
  split.
  - apply (proj1 (process_data_returns_iff_items_well_formed
                    [("albums", JObj [("items", JList [sample_item "n" "a" "1";
                                                        sample_item "m" "b" "2"])])]
                    [("items", JList [sample_item "n" "a" "1"; sample_item "m" "b" "2"])]
                    [sample_item "n" "a" "1"; sample_item "m" "b" "2"]
                    eq_refl eq_refl)).
    reflexivity.
  - apply (proj2 (process_data_returns_iff_items_well_formed
                    [("albums", JObj [("items", JList [sample_item "n" "a" "1";
                                                        JObj [("id", JStr "2")]])])]
                    [("items", JList [sample_item "n" "a" "1"; JObj [("id", JStr "2")]])]
                    [sample_item "n" "a" "1"; JObj [("id", JStr "2")]]
                    eq_refl eq_refl)).
    reflexivity.
Defined.

(** ** The quality assessor *)

(** C4 (as stated, refuted): assessing a fresh agent, whose store is empty,
    returns 0 and appends nothing to [quality_scores]. *)
Lemma assess_data_quality_empty_appends_nothing :
  exists q s',
    assess_data_quality (init 1 20) = Return q s'
    /\ q = 0%Q
    /\ List.length (quality_scores (collection_stats s'))
       <> S (List.length (quality_scores (collection_stats (init 1 20)))).
Proof.
  eexists. eexists. split; [vm_compute; reflexivity |]. split; [reflexivity |].
  cbn. discriminate.
Qed.

(** C4 (amended): an assessment of a non-empty store appends exactly one
    score, the one it returns, to [quality_scores]; an assessment of an empty
    store returns 0 and leaves the agent, [quality_scores] included, as it
    was. *)
Theorem assess_data_quality_appends_unless_empty (s : Agent) :
  exists q s',
    assess_data_quality s = Return q s'
    /\ match data_store s with
       | [] => q = 0%Q /\ s' = s
       | _ :: _ =>
           quality_scores (collection_stats s')
           = (quality_scores (collection_stats s) ++ [q])%list
           /\ List.length (quality_scores (collection_stats s'))
              = S (List.length (quality_scores (collection_stats s)))
       end.
Proof.
  destruct (data_store s) as [| d store] eqn:E.
  - rewrite (assess_data_quality_empty s E). eauto.
  - rewrite assess_data_quality_nonempty by (rewrite E; discriminate).
    eexists. eexists. split; [reflexivity |]. cbn.
    split; [reflexivity |]. rewrite length_app. cbn. lia.
Qed.

(** C6: the assessor returns 0 on an empty store, and on a non-empty one the
    number of records with both 'name' and 'artist' over the number of
    records, which lies in [0,1]. *)
Theorem assess_data_quality_score (s : Agent) :
  exists q s',
    assess_data_quality s = Return q s'
    /\ (data_store s = [] -> q = 0%Q)
    /\ (data_store s <> [] ->
        q = (inject_Z (Z.of_nat (count_complete (data_store s)))
             / inject_Z (Z.of_nat (List.length (data_store s))))%Q
        /\ (0 <= q)%Q /\ (q <= 1)%Q).
Proof.
  destruct (data_store s) as [| d store] eqn:E.
  - rewrite (assess_data_quality_empty s E).
    eexists. eexists. split; [reflexivity |]. split; [reflexivity | congruence].
  - rewrite assess_data_quality_nonempty by (rewrite E; discriminate).
    rewrite E. eexists. eexists. split; [reflexivity |].
    split; [discriminate |]. intros _. cbn [score_spec].
    split; [reflexivity |].
    apply ratio_in_unit_interval; [apply count_complete_le | cbn; lia].
Qed.

Lemma assess_data_quality_score_witness :
  (exists q s', assess_data_quality (init 1 20) = Return q s' /\ q = 0%Q)
  /\ (exists q s',
        assess_data_quality
          (with_data_store (fun _ => [[("name", JStr "n"); ("artist", JStr "a")];
                                      [("name", JStr "m")]]) (init 1 20))
        = Return q s'
        /\ q = (1 # 2)%Q /\ (0 <= q)%Q /\ (q <= 1)%Q).
Proof.
  split.
  - destruct (assess_data_quality_score (init 1 20)) as (q & s' & Hq & Hempty & _).
    exists q, s'. split; [exact Hq |]. apply Hempty. reflexivity.
  - destruct (assess_data_quality_score
                (with_data_store (fun _ => [[("name", JStr "n"); ("artist", JStr "a")];
                                            [("name", JStr "m")]]) (init 1 20)))
      as (q & s' & Hq & _ & Hfull).
    exists q, s'. split; [exact Hq |].
    destruct Hfull as (Hval & Hlo & Hhi); [cbn; discriminate |].
    split; [| split; assumption].
    rewrite Hval. vm_compute. reflexivity.
Defined.

(** ** The adaptive controller *)

(** C7: when the success rate is below 0.5, [adjust_strategy] doubles
    [delay_multiplier] and changes nothing else; when it lies in [0.5, 0.9],
    [adjust_strategy] changes nothing. *)
Theorem adjust_strategy_doubles_below_half (s : Agent) :
  ((success_rate s < 1 # 2)%Q ->
   adjust_strategy s
   = Return tt (mkAgent (data_store s) (collection_stats s)
                        (delay_multiplier s * 2)%Q (base_delay s) (max_requests s)))
  /\ ((1 # 2 <= success_rate s)%Q /\ (success_rate s <= 9 # 10)%Q ->
      adjust_strategy s = Return tt s).
Proof.
  rewrite adjust_strategy_effect. split.
  - intros H. apply Qltb_true in H. rewrite H. reflexivity.
  - intros (Hlo & Hhi). apply Qltb_false in Hlo, Hhi. rewrite Hlo, Hhi. reflexivity.
Qed.

Lemma adjust_strategy_doubles_below_half_witness :
  adjust_strategy (mkAgent [] (mkStats 4 1 3 []) 1%Q 1%Q 20)
  = Return tt (mkAgent [] (mkStats 4 1 3 []) (1 * 2)%Q 1%Q 20)
  /\ adjust_strategy (mkAgent [] (mkStats 10 7 3 []) 4%Q 1%Q 20)
     = Return tt (mkAgent [] (mkStats 10 7 3 []) 4%Q 1%Q 20).
Proof.
  split.
  - apply (proj1 (adjust_strategy_doubles_below_half
                    (mkAgent [] (mkStats 4 1 3 []) 1%Q 1%Q 20))).
    reflexivity.
  - apply (proj2 (adjust_strategy_doubles_below_half
                    (mkAgent [] (mkStats 10 7 3 []) 4%Q 1%Q 20))).
    split; vm_compute; discriminate.
Defined.

(** C5: in a run of a fresh agent, [delay_multiplier] never decreases.
    [assess_performance] leaves it doubled when the success rate is below
    0.5 and unchanged otherwise, so the branch that multiplies by 0.8 never
    runs; hence no iteration lowers it, whether it returns or raises, and it
    only grows from one reachable state to a later one. *)
Theorem delay_multiplier_never_decreases (base : Q) (max : Z) (s : Agent) :
  reachable (init base max) s ->
  (exists s1,
     assess_performance s = Return tt s1
     /\ delay_multiplier s1
        = (if Qltb (success_rate s) (1 # 2) then (delay_multiplier s * 2)%Q
           else delay_multiplier s))
  /\ (forall r jitter,
        (delay_multiplier s
         <= delay_multiplier (final_state (iteration r jitter s)))%Q)
  /\ (forall s', reachable s s' -> (delay_multiplier s <= delay_multiplier s')%Q).
Proof.
  intros Hs.
  assert (Hnonneg : forall t, reachable (init base max) t -> (0 <= delay_multiplier t)%Q).
  { intros t Ht. apply (reachable_delay_nonneg (init base max)); [| exact Ht].
    cbn. discriminate. }
  assert (Hstep : forall t r j, reachable (init base max) t ->
            (delay_multiplier t <= delay_multiplier (final_state (iteration r j t)))%Q).
  { intros t r j Ht. pose proof (iteration_effect r j t) as (_ & _ & _ & Hdm).
    cbv zeta in Hdm. destruct Hdm as [-> | ->].
    - apply Qle_refl.
    - apply Q_le_double. exact (Hnonneg t Ht). }
  split; [| split].
  - destruct (assess_performance_effect s) as (s1 & Ha & _ & _ & _ & Hdm). eauto.
  - intros r j. exact (Hstep s r j Hs).
  - intros s' Hs'. induction Hs' as [| t r j t' Ht IH Hguard Hit].
    + apply Qle_refl.
    + eapply Qle_trans; [exact IH |].
      pose proof (Hstep t r j (reachable_trans _ _ _ Hs Ht)) as H.
      rewrite Hit in H. exact H.
Qed.

Lemma delay_multiplier_never_decreases_witness :
  (exists s1,
     assess_performance (init 1 20) = Return tt s1
     /\ delay_multiplier s1
        = (if Qltb (success_rate (init 1 20)) (1 # 2)
           then (delay_multiplier (init 1 20) * 2)%Q
           else delay_multiplier (init 1 20)))
  /\ (forall r jitter,
        (delay_multiplier (init 1 20)
         <= delay_multiplier (final_state (iteration r jitter (init 1 20))))%Q)
  /\ (forall s', reachable (init 1 20) s' ->
                 (delay_multiplier (init 1 20) <= delay_multiplier s')%Q).
Proof.
  exact (delay_multiplier_never_decreases 1 20 (init 1 20) (reach_start (init 1 20))).
Defined.

(** ** Validation and storage *)


(** Where the whole batch of an accepted payload goes. *)
Lemma handle_batch_stores (v : json) (batch : list dict) (s : Agent) :
  truthy v = true ->
  process_data v = Ok batch ->
  handle_batch v s = Return tt (with_data_store (fun store => (store ++ batch)%list) s).
Proof.
  intros Ht Hp. unfold handle_batch, bind, lift, store_if_valid, store_data, modify.
  rewrite Ht, Hp, (process_data_validates v batch Hp). reflexivity.
Qed.

(** The store an iteration leaves, returned or raised: the old one, or the
    old one extended by the whole batch of its own payload. *)
Lemma iteration_store_final (r : http_result) (jitter : Q) (s : Agent) :
  let s' := final_state (iteration r jitter s) in
  data_store s' = data_store s
  \/ exists v batch,
       r = Response 200 (Some v)
       /\ truthy v = true
       /\ process_data v = Ok batch
       /\ data_store s' = (data_store s ++ batch)%list.
Proof.
  destruct (collect_batch_effect r s) as (v & s1 & Hc & Hst1 & _).
  pose proof (collect_batch_data r s v s1 Hc) as Hv.
  cbv zeta. rewrite (iteration_final r jitter s v s1 Hc).
  destruct (truthy v) eqn:Htruthy.
  - destruct r as [| status_code [b |]]; subst v; try discriminate.
    destruct (Z.eqb_spec status_code 200) as [-> |]; [| discriminate].
    destruct (process_data b) as [batch | e] eqn:Hp.
    + rewrite (handle_batch_stores b batch s1 Htruthy Hp).
      destruct (assess_performance_effect
                  (with_data_store (fun store => (store ++ batch)%list) s1))
        as (s3 & -> & Hst3 & _).
      right. exists b, batch. cbn [final_state]. rewrite Hst3. cbn. rewrite Hst1. auto.
    + left. unfold handle_batch, bind, lift. rewrite Htruthy, Hp. exact Hst1.
  - left. unfold handle_batch, ret. rewrite Htruthy.
    destruct (assess_performance_effect s1) as (s3 & -> & Hst3 & _).
    cbn [final_state]. congruence.
Qed.




(** ** Token acquisition *)

Lemma get_token_failures :
  get_token TransportError = JNull
  /\ (forall status_code body,
        400 <= status_code < 600 -> get_token (Response status_code body) = JNull)
  /\ (forall status_code, get_token (Response status_code None) = JNull)
  /\ (forall status_code o,
        dict_get "access_token" o = None ->
        get_token (Response status_code (Some (JObj o))) = JNull).
Proof.
  repeat split.
  - intros status_code body H. unfold get_token, raise_for_status.
    replace (400 <=? status_code) with true by (symmetry; apply Z.leb_le; lia).
    replace (status_code <? 600) with true by (symmetry; apply Z.ltb_lt; lia).
    reflexivity.
  - intros status_code. unfold get_token.
    destruct (raise_for_status status_code); reflexivity.
  - intros status_code o H. unfold get_token, py_getitem_str. rewrite H.
    destruct (raise_for_status status_code); reflexivity.
Qed.

(** C9: when the token request yields no usable token, the run of a fresh
    agent ends ABORTED, a status other than COMPLETE, before any iteration:
    the three counters are 0, [quality_scores] is empty and the store is
    empty. *)
Theorem token_failure_aborts
  (fuel : nat) (tok : http_result) (net : nat -> http_result) (rnd : nat -> Q)
  (base : Q) (max : Z) :
  truthy (get_token tok) = false ->
  exists s',
    run_collection fuel tok net rnd (init base max) = Some (Return ABORTED s')
    /\ ABORTED <> COMPLETE
    /\ total_requests (collection_stats s') = 0
    /\ successful_requests (collection_stats s') = 0
    /\ failed_requests (collection_stats s') = 0
    /\ quality_scores (collection_stats s') = []
    /\ data_store s' = [].
Proof.
  intros Htok. exists (init base max).
  unfold run_collection. rewrite Htok. cbn.
  repeat split. discriminate.
Qed.

Lemma token_failure_aborts_witness :
  exists s',
    run_collection 5 (Response 401 (Some (JObj [("error", JStr "invalid_client")])))
      (fun _ => Response 200 (Some (sample_payload [sample_item "n" "a" "1"])))
      (fun _ => 1%Q) (init 1 5)
    = Some (Return ABORTED s')
    /\ ABORTED <> COMPLETE
    /\ total_requests (collection_stats s') = 0
    /\ successful_requests (collection_stats s') = 0
    /\ failed_requests (collection_stats s') = 0
    /\ quality_scores (collection_stats s') = []
    /\ data_store s' = [].
Proof.
  apply (token_failure_aborts 5
           (Response 401 (Some (JObj [("error", JStr "invalid_client")])))
           (fun _ => Response 200 (Some (sample_payload [sample_item "n" "a" "1"])))
           (fun _ => 1%Q) 1 5).
  reflexivity.
Defined.

(** ** What the store holds *)

Lemma validate_data_Forall (records : list dict) :
  validate_data records = true <->
  Forall (fun d => dict_in "name" d = true /\ dict_in "artist" d = true) records.
Proof.
  unfold validate_data. rewrite forallb_forall, Forall_forall.
  unfold has_required. split; intros H d Hd; specialize (H d Hd).
  - apply andb_true_iff. exact H.
  - apply andb_true_iff in H. exact H.
Qed.

(** Whatever way a run ends, its store went through the states of
    [reachable]. *)
Lemma run_collection_store
  (fuel : nat) (tok : http_result) (net : nat -> http_result) (rnd : nat -> Q)
  (s0 : Agent) (o : outcome run_status) :
  run_collection fuel tok net rnd s0 = Some o ->
  exists s, reachable s0 s
            /\ (data_store (final_state o) = data_store s
                \/ exists v batch,
                     process_data v = Ok batch
                     /\ data_store (final_state o) = (data_store s ++ batch)%list).
Proof.
  unfold run_collection. destruct (negb (truthy (get_token tok))).
  - intros [= <-]. exists s0. split; [constructor | left; reflexivity].
  - destruct (while_not_complete fuel net rnd s0) as [[[] s' | e s'] |] eqn:Hw;
      try discriminate; intros [= <-];
      pose proof (while_not_complete_reachable s0 fuel net rnd s0 _ (reach_start s0) Hw)
        as H.
    + exists s'. split; [exact H | left; reflexivity].
    + destruct H as (s1 & r & j & Hs1 & _ & Hit). exists s1. split; [exact Hs1 |].
      pose proof (iteration_effect r j s1) as (_ & _ & Hstore & _).
      rewrite Hit in Hstore. cbn in Hstore |- *.
      destruct Hstore as [-> | (v & batch & Hp & _ & ->)]; eauto.
Qed.

(** C10: every record [process_data] returns has 'name' and 'artist', so
    every batch it returns validates; every record in the store of a run of
    a fresh agent has both keys, between iterations and when the run ends;
    and on such a store, when it is not empty, the quality score is 1. *)
Theorem stored_records_have_required_fields (base : Q) (max : Z) :
  (forall data batch,
     process_data data = Ok batch ->
     Forall (fun d => dict_in "name" d = true /\ dict_in "artist" d = true) batch
     /\ validate_data batch = true)
  /\ (forall s,
        reachable (init base max) s ->
        Forall (fun d => dict_in "name" d = true /\ dict_in "artist" d = true)
               (data_store s)
        /\ (data_store s <> [] ->
            exists q s', assess_data_quality s = Return q s' /\ (q == 1)%Q))
  /\ (forall fuel tok net rnd o,
        run_collection fuel tok net rnd (init base max) = Some o ->
        Forall (fun d => dict_in "name" d = true /\ dict_in "artist" d = true)
               (data_store (final_state o))).
Proof.
  assert (Hreach : forall s, reachable (init base max) s ->
                             validate_data (data_store s) = true).
  { intros s Hs. apply (reachable_store_valid (init base max)); [reflexivity | exact Hs]. }
  split; [| split].
  - intros data batch Hp. pose proof (process_data_validates data batch Hp) as Hv.
    split; [apply validate_data_Forall |]; exact Hv.
  - intros s Hs. split; [apply validate_data_Forall; exact (Hreach s Hs) |].
    intros Hne. rewrite (assess_data_quality_nonempty s Hne).
    eexists. eexists. split; [reflexivity |].
    destruct (data_store s) as [| d store] eqn:E; [congruence |].
    cbn [score_spec]. rewrite <- E, (count_complete_valid _ (Hreach s Hs)).
    apply ratio_self. rewrite E. cbn. lia.
  - intros fuel tok net rnd o Hrun.
    destruct (run_collection_store fuel tok net rnd (init base max) o Hrun)
      as (s & Hs & [-> | (v & batch & Hp & ->)]);
      apply validate_data_Forall.
    + exact (Hreach s Hs).
    + unfold validate_data. rewrite forallb_app.
      fold (validate_data (data_store s)). fold (validate_data batch).
      rewrite (Hreach s Hs), (process_data_validates v batch Hp). reflexivity.
Qed.

Lemma stored_records_have_required_fields_witness :
  validate_data [[("name", JStr "n"); ("artist", JStr "a"); ("id", JStr "1")]] = true
  /\ exists q s',
       assess_data_quality
         (final_state
            (iteration (Response 200 (Some (sample_payload [sample_item "n" "a" "1"])))
                       1 (init 1 20)))
       = Return q s'
       /\ (q == 1)%Q.
Proof.
  split.
  - apply (proj1 (stored_records_have_required_fields 1 20)
             (sample_payload [sample_item "n" "a" "1"])).
    reflexivity.
  - apply (proj1 (proj2 (stored_records_have_required_fields 1 20))).
    + apply (reach_iteration (init 1 20) (init 1 20)
               (Response 200 (Some (sample_payload [sample_item "n" "a" "1"]))) 1%Q).
      * apply reach_start.
      * reflexivity.
      * vm_compute. reflexivity.
    + vm_compute. discriminate.
Defined.

(** * Further properties of the collection agent *)

(** ** Counters and the success rate *)

Lemma collect_batch_counts (r : http_result) (s : Agent) :
  let c := collection_stats s in
  let c' := collection_stats (final_state (collect_batch r s)) in
  total_requests c' = total_requests c + 1
  /\ successful_requests c <= successful_requests c' <= successful_requests c + 1
  /\ failed_requests c <= failed_requests c' <= failed_requests c + 1
  /\ successful_requests c + failed_requests c + 1
     <= successful_requests c' + failed_requests c'.
Proof.
  unfold collect_batch, bind, modify, ret.
  destruct r as [| status_code [v |]]; cbn -[Z.add];
    try destruct (status_code =? 200); cbn -[Z.add]; lia.
Qed.

(** Only [collect_batch] writes the counters of an iteration. *)
Lemma iteration_counters (r : http_result) (jitter : Q) (s : Agent) :
  same_counters (final_state (collect_batch r s)) (final_state (iteration r jitter s)).
Proof.
  destruct (collect_batch_effect r s) as (v & s1 & Hc & _).
  pose proof (handle_batch_frame v s1) as (Hcs & _).
  rewrite (iteration_final r jitter s v s1 Hc). rewrite Hc. cbn [final_state].
  destruct (handle_batch v s1) as [[] s2 | e s2]; cbn in Hcs.
  - destruct (assess_performance_effect s2) as (s3 & -> & _ & _ & (Ht & Hsu & Hf) & _).
    unfold final_state, same_counters.
    rewrite Ht, Hsu, Hf, Hcs. auto.
  - unfold same_counters. rewrite Hcs. auto.
Qed.

Lemma ratio_Z_in_unit_interval (a b : Z) :
  0 <= a <= b -> 0 < b ->
  (0 <= inject_Z a / inject_Z b /\ inject_Z a / inject_Z b <= 1)%Q.
Proof.
  intros Ha Hb.
  assert (Hpos : (0 < inject_Z b)%Q).
  { change 0%Q with (inject_Z 0). rewrite <- Zlt_Qlt. lia. }
  split.
  - apply Qle_shift_div_l; [exact Hpos |].
    rewrite Qmult_0_l. change 0%Q with (inject_Z 0). rewrite <- Zle_Qle. lia.
  - apply Qle_shift_div_r; [exact Hpos |].
    rewrite Qmult_1_l. rewrite <- Zle_Qle. lia.
Qed.

(** X1: between the iterations of a run of a fresh agent, each of
    [successful_requests] and [failed_requests] lies between 0 and
    [total_requests], together they are at least [total_requests], and the
    success rate lies in [0,1]. *)
Theorem reachable_counters_bounded (base : Q) (max : Z) (s : Agent) :
  reachable (init base max) s ->
  let c := collection_stats s in
  0 <= successful_requests c <= total_requests c
  /\ 0 <= failed_requests c <= total_requests c
  /\ total_requests c <= successful_requests c + failed_requests c
  /\ (0 <= success_rate s)%Q /\ (success_rate s <= 1)%Q.
Proof.
  intros Hs.
  assert (Hinv : 0 <= successful_requests (collection_stats s)
                      <= total_requests (collection_stats s)
                 /\ 0 <= failed_requests (collection_stats s)
                         <= total_requests (collection_stats s)
                 /\ total_requests (collection_stats s)
                    <= successful_requests (collection_stats s)
                       + failed_requests (collection_stats s)).
  { induction Hs as [| s r j s' _ IH _ Hit].
    - cbn. lia.
    - pose proof (collect_batch_counts r s) as Hc.
      pose proof (iteration_counters r j s) as (Ht & Hsu & Hf).
      rewrite Hit in Ht, Hsu, Hf. cbn [final_state] in Ht, Hsu, Hf.
      cbv zeta in Hc. rewrite Ht, Hsu, Hf. lia. }
  cbv zeta. destruct Hinv as (Hsu & Hf & Hsum).
  repeat split; try lia.
  - unfold success_rate.
    destruct (Z.ltb_spec 0 (total_requests (collection_stats s))) as [Hpos | Hzero].
    + apply ratio_Z_in_unit_interval; lia.
    + apply Qle_refl.
  - unfold success_rate.
    destruct (Z.ltb_spec 0 (total_requests (collection_stats s))) as [Hpos | Hzero].
    + apply ratio_Z_in_unit_interval; lia.
    + discriminate.
Qed.

Lemma reachable_counters_bounded_witness :
  let s := final_state (iteration (Response 503 None) 1 (init 1 20)) in
  let c := collection_stats s in
  0 <= successful_requests c <= total_requests c
  /\ 0 <= failed_requests c <= total_requests c
  /\ total_requests c <= successful_requests c + failed_requests c
  /\ (0 <= success_rate s)%Q /\ (success_rate s <= 1)%Q.
Proof.
  apply (reachable_counters_bounded 1 20).
  apply (reach_iteration (init 1 20) (init 1 20) (Response 503 None) 1%Q).
  - apply reach_start.
  - reflexivity.
  - vm_compute. reflexivity.
Defined.

Lemma while_not_complete_balanced (fuel : nat) :
  forall (net : nat -> http_result) (rnd : nat -> Q) (s : Agent) (o : outcome unit),
    (forall n, undecodable_200 (net n) = false) ->
    counters_balanced s ->
    while_not_complete fuel net rnd s = Some o ->
    counters_balanced (final_state o).
Proof.
  induction fuel as [| fuel IH]; intros net rnd s o Hnet Hs; cbn [while_not_complete];
    destruct (collection_complete s); try discriminate;
    try (intros [= <-]; exact Hs).
  pose proof (iteration_balanced (net O) (rnd O) s (Hnet O) Hs) as Hb.
  destruct (iteration (net O) (rnd O) s) as [[] s1 | e s1]; cbn in Hb.
  - apply IH; [intros n; apply Hnet | exact Hb].
  - intros [= <-]. exact Hb.
Qed.

(** X2: when no GET of the run answers 200 with an undecodable body, the
    run of a fresh agent, however it ends, leaves
    [successful_requests + failed_requests = total_requests]. *)
Theorem run_collection_balanced
  (fuel : nat) (tok : http_result) (net : nat -> http_result) (rnd : nat -> Q)
  (base : Q) (max : Z) (o : outcome run_status) :
  (forall n, undecodable_200 (net n) = false) ->
  run_collection fuel tok net rnd (init base max) = Some o ->
  counters_balanced (final_state o).
Proof.
  intros Hnet. unfold run_collection.
  destruct (negb (truthy (get_token tok))).
  - intros [= <-]. reflexivity.
  - destruct (while_not_complete fuel net rnd (init base max)) as [o' |] eqn:Hw;
      [| discriminate].
    pose proof (while_not_complete_balanced fuel net rnd (init base max) o' Hnet
                  eq_refl Hw) as Hb.
    destruct o' as [[] s' | e s']; intros [= <-]; exact Hb.
Qed.

Lemma run_collection_balanced_witness :
  counters_balanced
    (mkAgent [] (mkStats 2 0 2 []) (1 * 2 * 2)%Q 1%Q 2).
Proof.
  apply (run_collection_balanced 2 token_ok (fun _ => Response 429 None)
           (fun _ => 1%Q) 1 2
           (Return COMPLETE (mkAgent [] (mkStats 2 0 2 []) (1 * 2 * 2)%Q 1%Q 2))).
  - intros n. reflexivity.
  - vm_compute. reflexivity.
Defined.

(** ** The store and the score history *)

(** X3: the store is append-only: from one state of a run to a later one the
    old store is a prefix of the new one, so no record is dropped, replaced
    or reordered, and the store never shrinks. *)
Theorem data_store_append_only (s s' : Agent) :
  reachable s s' ->
  exists added,
    data_store s' = (data_store s ++ added)%list
    /\ (List.length (data_store s) <= List.length (data_store s'))%nat.
Proof.
  induction 1 as [| t r j t' _ (added & IH & _) _ Hit].
  - exists []. rewrite app_nil_r. auto.
  - pose proof (iteration_effect r j t) as (_ & _ & Hstore & _).
    rewrite Hit in Hstore. cbn in Hstore.
    destruct Hstore as [-> | (v & batch & _ & _ & ->)].
    + exists added. rewrite IH, length_app. split; [reflexivity | lia].
    + exists (added ++ batch)%list. rewrite IH, app_assoc, !length_app.
      split; [reflexivity | lia].
Qed.

Lemma data_store_append_only_witness :
  exists added,
    data_store (final_state
      (iteration (Response 200 (Some (sample_payload [sample_item "n" "a" "1"])))
                 1 (init 1 20)))
    = (data_store (init 1 20) ++ added)%list
    /\ (List.length (data_store (init 1 20))
        <= List.length (data_store (final_state
             (iteration (Response 200 (Some (sample_payload [sample_item "n" "a" "1"])))
                        1 (init 1 20)))))%nat.
Proof.
  apply (data_store_append_only (init 1 20)).
  apply (reach_iteration (init 1 20) (init 1 20)
           (Response 200 (Some (sample_payload [sample_item "n" "a" "1"]))) 1%Q).
  - apply reach_start.
  - reflexivity.
  - vm_compute. reflexivity.
Defined.

(** The history of scores after [assess_performance]. *)
Lemma assess_performance_scores (s : Agent) :
  quality_scores (collection_stats (final_state (assess_performance s)))
  = match data_store s with
    | [] => quality_scores (collection_stats s)
    | _ :: _ => (quality_scores (collection_stats s) ++ [score_spec (data_store s)])%list
    end.
Proof.
  assert (Hadj : forall t, quality_scores (collection_stats (final_state (adjust_strategy t)))
                           = quality_scores (collection_stats t)).
  { intros t. rewrite adjust_strategy_effect. cbn [final_state].
    destruct (Qltb (success_rate t) (1 # 2)); [reflexivity |].
    destruct (Qltb (9 # 10) (success_rate t)); reflexivity. }
  unfold assess_performance, bind, get_success_rate, gets.
  destruct (data_store s) as [| d store] eqn:E.
  - rewrite (assess_data_quality_empty s E).
    destruct (Qltb (success_rate s) (4 # 5)); [apply Hadj | reflexivity].
  - rewrite assess_data_quality_nonempty by (rewrite E; discriminate).
    rewrite E.
    destruct (Qltb (success_rate s) (4 # 5)); [rewrite Hadj |]; reflexivity.
Qed.

(** An iteration that returns appends at most one score, that of the store
    it leaves. *)
Lemma iteration_scores (r : http_result) (jitter : Q) (s s' : Agent) :
  iteration r jitter s = Return tt s' ->
  quality_scores (collection_stats s')
  = match data_store s' with
    | [] => quality_scores (collection_stats s)
    | _ :: _ => (quality_scores (collection_stats s) ++ [score_spec (data_store s')])%list
    end.
Proof.
  intros Hit. destruct (iteration_return r jitter s s' Hit) as (v & s1 & s2 & Hc & Hh & Ha & _).
  destruct (collect_batch_effect r s) as (v' & s1' & Hc' & _ & _ & _ & Hqs1 & _).
  rewrite Hc in Hc'. injection Hc' as <- <-.
  pose proof (handle_batch_frame v s1) as (Hcs & _). rewrite Hh in Hcs. cbn in Hcs.
  pose proof (assess_performance_scores s2) as Hsc.
  destruct (assess_performance_effect s2) as (s3 & Ha' & Hstore & _).
  rewrite Ha in Ha'. injection Ha' as <-.
  rewrite Ha in Hsc. cbn [final_state] in Hsc.
  rewrite Hsc, Hstore, Hcs, Hqs1. reflexivity.
Qed.

(** X4: in a run of a fresh agent every recorded quality score equals 1, and
    there are at most as many of them as requests made: the history carries
    no information beyond its length. *)
Theorem quality_scores_all_one (base : Q) (max : Z) (s : Agent) :
  reachable (init base max) s ->
  Forall (fun q => (q == 1)%Q) (quality_scores (collection_stats s))
  /\ Z.of_nat (List.length (quality_scores (collection_stats s)))
     <= total_requests (collection_stats s).
Proof.
  intros Hs.
  assert (Hvalid : forall t, reachable (init base max) t ->
                             validate_data (data_store t) = true).
  { intros t Ht. apply (reachable_store_valid (init base max)); [reflexivity | exact Ht]. }
  induction Hs as [| s r j s' Hs (IHall & IHlen) Hguard Hit].
  - cbn. split; [constructor | lia].
  - pose proof (iteration_scores r j s s' Hit) as Hsc.
    pose proof (iteration_effect r j s) as (Ht & _).
    rewrite Hit in Ht. cbn in Ht.
    pose proof (Hvalid s' (reach_iteration _ s r j s' Hs Hguard Hit)) as Hv.
    destruct (data_store s') as [| d store] eqn:E; rewrite Hsc.
    + split; [exact IHall | lia].
    + split.
      * apply Forall_app. split; [exact IHall |].
        constructor; [| constructor].
        cbn [score_spec]. rewrite (count_complete_valid _ Hv).
        apply ratio_self. cbn. lia.
      * rewrite length_app. cbn [List.length]. lia.
Qed.

Lemma quality_scores_all_one_witness :
  let s := final_state
             (iteration (Response 200 (Some (sample_payload [sample_item "n" "a" "1"])))
                        1 (init 1 20)) in
  Forall (fun q => (q == 1)%Q) (quality_scores (collection_stats s))
  /\ Z.of_nat (List.length (quality_scores (collection_stats s)))
     <= total_requests (collection_stats s).
Proof.
  apply (quality_scores_all_one 1 20).
  apply (reach_iteration (init 1 20) (init 1 20)
           (Response 200 (Some (sample_payload [sample_item "n" "a" "1"]))) 1%Q).
  - apply reach_start.
  - reflexivity.
  - vm_compute. reflexivity.
Defined.

(** ** Growth of the delay *)

(** X5: in a run of a fresh agent [delay_multiplier] is at least 1, and as
    long as fewer than 1024 requests were made it is at most 2 to the power
    [total_requests] and the float has not overflowed: it doubles at most
    once per request. *)
Theorem delay_multiplier_bounds (base : Q) (max : Z) (s : Agent) :
  reachable (init base max) s ->
  (1 <= delay_multiplier s)%Q
  /\ (total_requests (collection_stats s) < 1024 ->
      (delay_multiplier s <= inject_Z (2 ^ total_requests (collection_stats s)))%Q
      /\ multiplier_overflowed s = false).
Proof.
  intros Hs. destruct (reachable_in_run base max s Hs) as (_ & _ & _ & Hlo & Hhi).
  split; [exact Hlo |]. intros Hlt. split; [exact Hhi |].
  exact (multiplier_finite _ s Hlo Hhi Hlt).
Qed.

Lemma delay_multiplier_bounds_witness :
  let s := final_state (iteration TransportError 1 (init 1 20)) in
  (1 <= delay_multiplier s)%Q
  /\ (delay_multiplier s <= inject_Z (2 ^ total_requests (collection_stats s)))%Q
  /\ multiplier_overflowed s = false.
Proof.
  destruct (delay_multiplier_bounds 1 20
              (final_state (iteration TransportError 1 (init 1 20)))) as (Hlo & Hrest).
  - apply (reach_iteration (init 1 20) (init 1 20) TransportError 1%Q).
    + apply reach_start.
    + reflexivity.
    + vm_compute. reflexivity.
  - destruct Hrest as (Hhi & Hfin); [vm_compute; reflexivity |]. auto.
Defined.

(** ** Runs against a uniform endpoint *)

(** An invariant kept by every returning iteration on the responses [R] and
    the jitters [J] allow holds when the loop, fed such inputs only, ends;
    and the loop then ends by its guard. *)
Lemma while_not_complete_invariant
  (P : Agent -> Prop) (R : http_result -> Prop) (J : Q -> Prop) :
  (forall r j s, R r -> J j -> P s -> collection_complete s = false ->
                 exists s', iteration r j s = Return tt s' /\ P s') ->
  forall (fuel : nat) (net : nat -> http_result) (rnd : nat -> Q) (s : Agent)
         (o : outcome unit),
    (forall n, R (net n)) ->
    (forall n, J (rnd n)) ->
    P s ->
    while_not_complete fuel net rnd s = Some o ->
    exists s', o = Return tt s' /\ P s' /\ collection_complete s' = true.
Proof.
  intros Hstep. induction fuel as [| fuel IH]; intros net rnd s o Hnet Hrnd Hs;
    cbn [while_not_complete]; destruct (collection_complete s) eqn:Hguard;
    try discriminate; try (intros [= <-]; eauto).
  destruct (Hstep (net O) (rnd O) s (Hnet O) (Hrnd O) Hs Hguard) as (s1 & -> & Hs1).
  apply IH; [intros n; apply Hnet | intros n; apply Hrnd | exact Hs1].
Qed.

(** An iteration whose payload [process_data] accepts returns as soon as
    [time.sleep] accepts the length computed in the state it leaves. *)
Lemma iteration_returns_if (r : http_result) (jitter : Q) (s : Agent) :
  transform_raises r = false ->
  time_sleep (sleep_length jitter (final_state (iteration r jitter s))) = Ok tt ->
  iteration r jitter s = Return tt (final_state (iteration r jitter s)).
Proof.
  intros Hr Hsleep. destruct (iteration r jitter s) as [[] s' | e s'] eqn:Hit;
    [reflexivity |].
  destruct (iteration_raise _ _ _ _ _ Hit) as [(Hraise & _) | Herr]; [congruence |].
  cbn [final_state] in Hsleep. congruence.
Qed.

(** Whether an iteration doubles the multiplier is decided by the success
    rate its own request leaves. *)
Lemma iteration_delay_multiplier (r : http_result) (jitter : Q) (s : Agent) :
  transform_raises r = false ->
  let s' := final_state (iteration r jitter s) in
  delay_multiplier s'
  = if Qltb (success_rate s') (1 # 2) then (delay_multiplier s * 2)%Q
    else delay_multiplier s.
Proof.
  intros Hr. destruct (collect_batch_effect r s) as (v & s1 & Hc & _ & Hdm1 & _).
  pose proof (collect_batch_data r s v s1 Hc) as Hv.
  pose proof (handle_batch_effect v s1) as Hh.
  pose proof (handle_batch_frame v s1) as (_ & Hdm2 & _).
  cbv zeta. rewrite (iteration_final r jitter s v s1 Hc).
  destruct (handle_batch v s1) as [[] s2 | e s2]; cbn in Hdm2.
  - destruct (assess_performance_effect s2) as (s3 & -> & _ & _ & Hcnt & Hdm3).
    cbn [final_state].
    rewrite Hdm3, Hdm2, Hdm1, (success_rate_counters s2 s3 Hcnt). reflexivity.
  - exfalso. destruct Hh as (_ & Htruthy & Hp).
    destruct r as [| status_code [b |]]; subst v; try discriminate.
    cbn [transform_raises] in Hr.
    destruct (status_code =? 200); [| discriminate].
    rewrite Htruthy, Hp in Hr. discriminate.
Qed.

Lemma success_rate_none (s : Agent) :
  successful_requests (collection_stats s) = 0 ->
  Qltb (success_rate s) (1 # 2) = true.
Proof.
  intros H. apply Qltb_true. unfold success_rate. rewrite H.
  destruct (0 <? total_requests (collection_stats s)); [| reflexivity].
  unfold Qlt, Qdiv, Qmult. cbn. reflexivity.
Qed.

Lemma success_rate_all (s : Agent) :
  0 < total_requests (collection_stats s) ->
  successful_requests (collection_stats s) = total_requests (collection_stats s) ->
  Qltb (success_rate s) (1 # 2) = false.
Proof.
  intros Hpos H. apply Qltb_false. unfold success_rate. rewrite H.
  replace (0 <? total_requests (collection_stats s)) with true
    by (symmetry; apply Z.ltb_lt; exact Hpos).
  apply Qle_shift_div_l.
  - change 0%Q with (inject_Z 0). rewrite <- Zlt_Qlt. exact Hpos.
  - unfold Qle, Qmult, inject_Z. cbn [Qnum Qden]. lia.
Qed.

Lemma collect_batch_fails (r : http_result) (s : Agent) :
  request_fails r = true ->
  collect_batch r s
  = Return JNull (with_stats (fun c => incr_failed (incr_total c)) s).
Proof.
  unfold collect_batch, bind, modify, ret, request_fails.
  destruct r as [| status_code body]; [reflexivity |].
  destruct (status_code =? 200); [discriminate | reflexivity].
Qed.

Lemma collect_batch_succeeds (r : http_result) (s : Agent) :
  request_succeeds r = true ->
  exists v,
    collect_batch r s
    = Return v (with_stats (fun c => incr_successful (incr_total c)) s).
Proof.
  unfold collect_batch, bind, modify, ret, request_succeeds.
  destruct r as [| status_code [v |]]; try discriminate.
  intros ->. exists v. reflexivity.
Qed.

Lemma request_fails_no_transform (r : http_result) :
  request_fails r = true -> transform_raises r = false.
Proof.
  destruct r as [| status_code [v |]]; try reflexivity. cbn.
  destruct (status_code =? 200); [discriminate | reflexivity].
Qed.

(** What a failed request leaves: nothing stored, one more failure. *)
Lemma iteration_fails (r : http_result) (jitter : Q) (s : Agent) :
  request_fails r = true ->
  let s' := final_state (iteration r jitter s) in
  data_store s' = data_store s
  /\ successful_requests (collection_stats s')
     = successful_requests (collection_stats s)
  /\ failed_requests (collection_stats s') = failed_requests (collection_stats s) + 1.
Proof.
  intros Hr. cbv zeta.
  rewrite (iteration_final r jitter s _ _ (collect_batch_fails r s Hr)).
  assert (Hh : forall t, handle_batch JNull t = Return tt t) by reflexivity.
  rewrite Hh.
  match goal with
  | |- context [assess_performance ?t] =>
      destruct (assess_performance_effect t)
        as (s' & -> & Hstore & _ & (_ & Hsu & Hf) & _)
  end.
  cbn [final_state]. rewrite Hstore, Hsu, Hf. cbn -[Z.add]. auto.
Qed.

(** What a successful request leaves in the counters. *)
Lemma iteration_succeeds (r : http_result) (jitter : Q) (s : Agent) :
  request_succeeds r = true ->
  let s' := final_state (iteration r jitter s) in
  successful_requests (collection_stats s')
  = successful_requests (collection_stats s) + 1
  /\ failed_requests (collection_stats s') = failed_requests (collection_stats s).
Proof.
  intros Hr. destruct (collect_batch_succeeds r s Hr) as (v & Hc).
  pose proof (iteration_counters r jitter s) as (_ & Hsu & Hf).
  rewrite Hc in Hsu, Hf. cbn -[Z.add] in Hsu, Hf. auto.
Qed.

(** X6: against an endpoint that never answers 200, when every sleep is
    accepted (a non-negative [base_delay], jitters from [0.5, 1.5],
    [max_requests] below 1024 and small enough for the longest sleep to fit
    the clock), the run of a fresh agent with a token ends COMPLETE after
    [max_requests] failed requests, with nothing stored and no score
    recorded, and with [delay_multiplier] doubled at every request, to 2 to
    the power [max_requests]. *)
Theorem failing_endpoint_doubles_every_time
  (base : Q) (max : Z) (tok : http_result) (net : nat -> http_result)
  (rnd : nat -> Q) :
  0 <= max ->
  truthy (get_token tok) = true ->
  (forall n, request_fails (net n) = true) ->
  sleeps_accepted base max rnd ->
  exists s',
    run_collection (Z.to_nat max) tok net rnd (init base max)
    = Some (Return COMPLETE s')
    /\ total_requests (collection_stats s') = max
    /\ failed_requests (collection_stats s') = max
    /\ successful_requests (collection_stats s') = 0
    /\ data_store s' = []
    /\ quality_scores (collection_stats s') = []
    /\ (delay_multiplier s' == inject_Z (2 ^ max))%Q.
Proof.
  intros Hmax Htok Hnet Hacc.
  pose proof Hacc as (Hbase & Hrnd & Hbound & Hfits).
  set (P := fun s : Agent =>
    in_run base max s
    /\ successful_requests (collection_stats s) = 0
    /\ data_store s = []
    /\ quality_scores (collection_stats s) = []
    /\ failed_requests (collection_stats s) = total_requests (collection_stats s)
    /\ (delay_multiplier s == inject_Z (2 ^ total_requests (collection_stats s)))%Q).
  assert (Hstep : forall r j s,
            request_fails r = true ->
            (1 # 2 <= j)%Q /\ (j <= 3 # 2)%Q ->
            P s -> collection_complete s = false ->
            exists s', iteration r j s = Return tt s' /\ P s').
  { intros r j s Hr Hj (Hrun & Hsu & Hstore & Hqs & Hf & Hdm) Hguard.
    pose proof (request_fails_no_transform r Hr) as Hno.
    destruct (iteration_returns base max r (fun _ => j) O s Hrun) as (s' & Hit & Hrun' & Ht');
      [repeat split; assumption || apply Hj | exact Hguard | exact Hno |].
    exists s'. split; [exact Hit |].
    pose proof (iteration_fails r j s Hr) as (Hstore' & Hsu' & Hf').
    pose proof (iteration_delay_multiplier r j s Hno) as Hdm'.
    rewrite Hit in Hstore', Hsu', Hf', Hdm'. cbn [final_state] in Hstore', Hsu', Hf', Hdm'.
    pose proof (iteration_scores r j s s' Hit) as Hqs'.
    rewrite success_rate_none in Hdm' by congruence.
    rewrite Hstore', Hstore in Hqs'.
    destruct Hrun as (_ & _ & Ht & _).
    unfold P. split; [exact Hrun' |].
    rewrite Hsu', Hstore', Hqs', Hf', Ht', Hdm'.
    repeat split; try assumption; try lia.
    rewrite Hdm, Z.pow_add_r, inject_Z_mult by lia. reflexivity. }
  destruct (while_not_complete_terminates (Z.to_nat max) net rnd (init base max))
    as (o & Ho & _ & Hfin); [cbn; lia |].
  destruct (while_not_complete_invariant P
              (fun r => request_fails r = true)
              (fun j => (1 # 2 <= j)%Q /\ (j <= 3 # 2)%Q)
              Hstep (Z.to_nat max) net rnd (init base max) o Hnet Hrnd)
    as (s' & -> & (_ & Hsu & Hstore & Hqs & Hf & Hdm) & _); [| exact Ho |].
  { unfold P. split; [apply in_run_init |]. cbn. repeat split; lia. }
  cbn in Hfin. rewrite Z.max_r in Hfin by lia.
  exists s'. unfold run_collection. rewrite Htok, Ho. cbn [negb].
  rewrite Hfin in Hf, Hdm. repeat split; assumption.
Qed.

Lemma failing_endpoint_doubles_every_time_witness :
  exists s',
    run_collection (Z.to_nat 3) token_ok (fun _ => Response 429 None)
      (fun _ => 1%Q) (init 1 3)
    = Some (Return COMPLETE s')
    /\ total_requests (collection_stats s') = 3
    /\ failed_requests (collection_stats s') = 3
    /\ successful_requests (collection_stats s') = 0
    /\ data_store s' = []
    /\ quality_scores (collection_stats s') = []
    /\ (delay_multiplier s' == inject_Z (2 ^ 3))%Q.
Proof.
  apply (failing_endpoint_doubles_every_time 1 3 token_ok (fun _ => Response 429 None)
           (fun _ => 1%Q)).
  - lia.
  - reflexivity.
  - intros n. reflexivity.
  - unfold sleeps_accepted. split; [vm_compute; discriminate |].
    split; [intros n; split; vm_compute; discriminate |].
    split; [lia | vm_compute; reflexivity].
Defined.

(** X7: against an endpoint that always answers 200 with a payload
    [process_data] accepts, with a non-negative [base_delay] whose longest
    sleep (one and a half times it) fits the clock and jitters from
    [0.5, 1.5], the run ends COMPLETE with every request counted a success,
    none a failure, and [delay_multiplier] still 1: the agent never speeds
    up and, here, never backs off. *)
Theorem healthy_endpoint_keeps_delay
  (base : Q) (max : Z) (tok : http_result) (net : nat -> http_result)
  (rnd : nat -> Q) :
  0 <= max ->
  truthy (get_token tok) = true ->
  (forall n, request_succeeds (net n) && negb (transform_raises (net n)) = true) ->
  sleeps_accepted base 0 rnd ->
  exists s',
    run_collection (Z.to_nat max) tok net rnd (init base max)
    = Some (Return COMPLETE s')
    /\ total_requests (collection_stats s') = max
    /\ successful_requests (collection_stats s') = max
    /\ failed_requests (collection_stats s') = 0
    /\ delay_multiplier s' = 1%Q.
Proof.
  intros Hmax Htok Hnet (Hbase & Hrnd & Hbound & Hfits).
  set (P := fun s : Agent =>
    base_delay s = base
    /\ successful_requests (collection_stats s) = total_requests (collection_stats s)
    /\ failed_requests (collection_stats s) = 0
    /\ 0 <= total_requests (collection_stats s)
    /\ delay_multiplier s = 1%Q).
  assert (Hstep : forall r j s,
            request_succeeds r && negb (transform_raises r) = true ->
            (1 # 2 <= j)%Q /\ (j <= 3 # 2)%Q ->
            P s -> collection_complete s = false ->
            exists s', iteration r j s = Return tt s' /\ P s').
  { intros r j s Hr Hj (Hb & Hsu & Hf & Ht & Hdm) _.
    apply andb_true_iff in Hr as (Hr & Hno). apply negb_true_iff in Hno.
    pose proof (iteration_succeeds r j s Hr) as (Hsu' & Hf').
    pose proof (iteration_effect r j s) as (Ht' & (Hb' & _) & _).
    pose proof (iteration_delay_multiplier r j s Hno) as Hdm'.
    cbv zeta in *.
    rewrite success_rate_all in Hdm' by lia.
    assert (HP : P (final_state (iteration r j s))).
    { unfold P. rewrite Hsu', Hf', Ht', Hdm', Hb'. repeat split; try assumption; lia. }
    exists (final_state (iteration r j s)). split; [| exact HP].
    apply iteration_returns_if; [exact Hno |].
    destruct HP as (Hb1 & _ & _ & _ & Hdm1).
    apply (time_sleep_accepts base 0 j _ Hbase Hj Hbound Hfits Hb1);
      rewrite Hdm1; discriminate. }
  destruct (while_not_complete_terminates (Z.to_nat max) net rnd (init base max))
    as (o & Ho & _ & Hfin); [cbn; lia |].
  destruct (while_not_complete_invariant P
              (fun r => request_succeeds r && negb (transform_raises r) = true)
              (fun j => (1 # 2 <= j)%Q /\ (j <= 3 # 2)%Q)
              Hstep (Z.to_nat max) net rnd (init base max) o Hnet Hrnd)
    as (s' & -> & (_ & Hsu & Hf & _ & Hdm) & _); [| exact Ho |].
  { unfold P. cbn. repeat split; lia. }
  cbn in Hfin. rewrite Z.max_r in Hfin by lia.
  exists s'. unfold run_collection. rewrite Htok, Ho. cbn [negb].
  rewrite Hsu, Hfin. auto.
Qed.

Lemma healthy_endpoint_keeps_delay_witness :
  exists s',
    run_collection (Z.to_nat 3) token_ok
      (fun _ => Response 200 (Some (sample_payload [sample_item "n" "a" "1"])))
      (fun _ => 1%Q) (init 1 3)
    = Some (Return COMPLETE s')
    /\ total_requests (collection_stats s') = 3
    /\ successful_requests (collection_stats s') = 3
    /\ failed_requests (collection_stats s') = 0
    /\ delay_multiplier s' = 1%Q.
Proof.
  apply (healthy_endpoint_keeps_delay 1 3 token_ok
           (fun _ => Response 200 (Some (sample_payload [sample_item "n" "a" "1"])))
           (fun _ => 1%Q)).
  - lia.
  - reflexivity.
  - intros n. reflexivity.
  - unfold sleeps_accepted. split; [vm_compute; discriminate |].
    split; [intros n; split; vm_compute; discriminate |].
    split; [lia | vm_compute; reflexivity].
Defined.

(** ** The sleep between requests *)



(** ** The token *)

(** X9: [get_token] yields a usable token exactly when the POST returns a
    response whose status is not 4xx or 5xx and whose body decodes to a dict
    with a truthy 'access_token'; the token is then that value.  Every other
    outcome makes the run abort. *)
Theorem get_token_truthy_iff (r : http_result) :
  truthy (get_token r) = true <->
  exists status_code o token,
    r = Response status_code (Some (JObj o))
    /\ raise_for_status status_code = false
    /\ dict_get "access_token" o = Some token
    /\ truthy token = true
    /\ get_token r = token.
Proof.
  split.
  - destruct r as [| status_code [[| b | q | str | l | o] |]]; cbn [get_token];
      try discriminate;
      destruct (raise_for_status status_code) eqn:Hst; cbn; try discriminate.
    destruct (dict_get "access_token" o) as [token |] eqn:Hk; [| discriminate].
    intros Ht. exists status_code, o, token. auto.
  - intros (status_code & o & token & -> & Hst & Hk & Ht & _).
    cbn [get_token py_getitem_str]. rewrite Hst, Hk. exact Ht.
Qed.

Lemma get_token_truthy_iff_witness :
  truthy (get_token token_ok) = true
  /\ exists status_code o token,
       Response 302 (Some (JObj [("access_token", JStr "BQD")]))
       = Response status_code (Some (JObj o))
       /\ raise_for_status status_code = false
       /\ dict_get "access_token" o = Some token
       /\ truthy token = true
       /\ get_token (Response 302 (Some (JObj [("access_token", JStr "BQD")]))) = token.
Proof.
  split.
  - apply (proj2 (get_token_truthy_iff token_ok)).
    exists 200, [("access_token", JStr "BQD")], (JStr "BQD").
    repeat split; reflexivity.
  - apply (proj1 (get_token_truthy_iff
                    (Response 302 (Some (JObj [("access_token", JStr "BQD")]))))).
    reflexivity.
Defined.

(** ** Payloads at the edges *)

(** X10: a payload dict without 'albums', or whose 'albums' has no 'items',
    is transformed into the empty batch without error; the iteration that
    fetched it counts a success and stores nothing, and only [time.sleep]
    can make it raise: it returns whenever the sleep is accepted. *)
Theorem process_data_defaults_to_empty (o : dict) (jitter : Q) (s : Agent) :
  dict_get "albums" o = None
  \/ (exists albums,
        dict_get "albums" o = Some (JObj albums) /\ dict_get "items" albums = None) ->
  process_data (JObj o) = Ok []
  /\ let out := iteration (Response 200 (Some (JObj o))) jitter s in
     let s' := final_state out in
     data_store s' = data_store s
     /\ successful_requests (collection_stats s')
        = successful_requests (collection_stats s) + 1
     /\ failed_requests (collection_stats s') = failed_requests (collection_stats s)
     /\ (out = Return tt s'
         \/ exists e,
              out = Raise e s' /\ time_sleep (sleep_length jitter s') = Err e)
     /\ (time_sleep (sleep_length jitter s') = Ok tt -> out = Return tt s').
Proof.
  intros H.
  assert (Hp : process_data (JObj o) = Ok []).
  { unfold process_data, py_get, rbind.
    destruct H as [-> | (albums & -> & ->)]; reflexivity. }
  assert (Hno : transform_raises (Response 200 (Some (JObj o))) = false).
  { cbn [transform_raises]. rewrite Hp. apply andb_false_r. }
  split; [exact Hp |]. cbv zeta.
  pose proof (iteration_succeeds (Response 200 (Some (JObj o))) jitter s eq_refl)
    as (Hsu & Hf).
  split; [| split; [exact Hsu | split; [exact Hf | split]]].
  - destruct (iteration_store_final (Response 200 (Some (JObj o))) jitter s)
      as [Hsame | (v & batch & [= <-] & _ & Hb & Hst)]; [exact Hsame |].
    rewrite Hp in Hb. injection Hb as <-. rewrite Hst. apply app_nil_r.
  - destruct (iteration (Response 200 (Some (JObj o))) jitter s)
      as [[] s' | e s'] eqn:Hit; [left; reflexivity |].
    right. exists e. split; [reflexivity |].
    destruct (iteration_raise _ _ _ _ _ Hit) as [(Hraise & _) | Herr];
      [congruence | exact Herr].
  - apply iteration_returns_if. exact Hno.
Qed.

Lemma process_data_defaults_to_empty_witness :
  process_data (JObj [("error", JStr "rate limited")]) = Ok []
  /\ let out := iteration (Response 200 (Some (JObj [("error", JStr "rate limited")])))
                          1 (init 1 20) in
     let s' := final_state out in
     data_store s' = data_store (init 1 20)
     /\ successful_requests (collection_stats s')
        = successful_requests (collection_stats (init 1 20)) + 1
     /\ failed_requests (collection_stats s')
        = failed_requests (collection_stats (init 1 20))
     /\ (out = Return tt s'
         \/ exists e,
              out = Raise e s' /\ time_sleep (sleep_length 1 s') = Err e)
     /\ (time_sleep (sleep_length 1 s') = Ok tt -> out = Return tt s').
Proof.
  apply (process_data_defaults_to_empty [("error", JStr "rate limited")] 1 (init 1 20)).
  left. reflexivity.
Defined.

(** X11: a truthy payload that is not a dict, or a payload whose 'albums' is
    not a dict, makes [process_data] raise AttributeError; the iteration that
    fetched it raises with it after counting the request a success, and
    stores nothing. *)
Theorem process_data_rejects_non_dict (v : json) (jitter : Q) (s : Agent) :
  (truthy v = true /\ forall o, v <> JObj o)
  \/ (exists o x, v = JObj o /\ dict_get "albums" o = Some x
                  /\ forall albums, x <> JObj albums) ->
  process_data v = Err AttributeError
  /\ exists s',
       iteration (Response 200 (Some v)) jitter s = Raise AttributeError s'
       /\ data_store s' = data_store s
       /\ total_requests (collection_stats s')
          = total_requests (collection_stats s) + 1
       /\ successful_requests (collection_stats s')
          = successful_requests (collection_stats s) + 1.
Proof.
  intros H.
  assert (Hp : process_data v = Err AttributeError /\ truthy v = true).
  { destruct H as [(Ht & Hno) | (o & x & -> & Hx & Hno)].
    - split; [| exact Ht].
      destruct v as [| b | q | str | l | o]; try reflexivity.
      exfalso. exact (Hno o eq_refl).
    - split.
      + unfold process_data, py_get, rbind. rewrite Hx.
        destruct x as [| b | q | str | l | albums]; try reflexivity.
        exfalso. exact (Hno albums eq_refl).
      + destruct o; [discriminate | reflexivity]. }
  destruct Hp as (Hp & Ht). split; [exact Hp |].
  unfold iteration, bind. unfold collect_batch at 1, bind, modify, ret.
  change (200 =? 200) with true. cbv beta iota.
  unfold handle_batch, bind, lift. rewrite Ht, Hp.
  eexists. split; [reflexivity |]. cbn -[Z.add]. auto.
Qed.

Lemma process_data_rejects_non_dict_witness :
  process_data (JList [JStr "maintenance"]) = Err AttributeError
  /\ exists s',
       iteration (Response 200 (Some (JList [JStr "maintenance"]))) 1 (init 1 20)
       = Raise AttributeError s'
       /\ data_store s' = data_store (init 1 20)
       /\ total_requests (collection_stats s')
          = total_requests (collection_stats (init 1 20)) + 1
       /\ successful_requests (collection_stats s')
          = successful_requests (collection_stats (init 1 20)) + 1.
Proof.
  apply (process_data_rejects_non_dict (JList [JStr "maintenance"]) 1 (init 1 20)).
  left. split; [reflexivity | discriminate].
Defined.

Lemma comprehension_Forall2 {A B : Type} (f : A -> result B) (R : A -> B -> Prop) :
  (forall a b, f a = Ok b -> R a b) ->
  forall l bs, comprehension f l = Ok bs -> Forall2 R l bs.
Proof.
  intros Hf. induction l as [| a l IH]; intros bs; cbn [comprehension].
  - intros [= <-]. constructor.
  - destruct (f a) as [b | e] eqn:Hb; cbn [rbind]; [| discriminate].
    destruct (comprehension f l) as [bs' |]; cbn [rbind]; [| discriminate].
    intros [= <-]. constructor; [exact (Hf a b Hb) | exact (IH bs' eq_refl)].
Qed.

Lemma process_item_record (a : json) (d : dict) :
  process_item a = Ok d -> record_of_item a d.
Proof.
  unfold process_item, py_getitem_str, py_getitem_0, rbind, record_of_item.
  destruct a as [| b | q | str | l | o]; try discriminate.
  destruct (dict_get "name" o) as [name |] eqn:Hname; [| discriminate].
  destruct (dict_get "artists" o)
    as [[| | | [| c str] | [| [| | | | | artist0] rest] |] |] eqn:Hartists;
    try discriminate.
  destruct (dict_get "name" artist0) as [artist |] eqn:Hartist; [| discriminate].
  destruct (dict_get "id" o) as [id |] eqn:Hid; [| discriminate].
  intros [= <-]. exists o, artist0, rest. cbn. rewrite Hname, Hartist, Hid. auto 10.
Qed.

(** X12: when [process_data] returns, its records match the payload's items
    one for one and in order: each record has exactly the keys 'name',
    'artist', 'id', holding the item's name, the name of the item's first
    artist, and the item's id. *)
Theorem process_data_records_match_items
  (o albums : dict) (items : list json) (batch : list dict) :
  dict_get "albums" o = Some (JObj albums) ->
  dict_get "items" albums = Some (JList items) ->
  process_data (JObj o) = Ok batch ->
  Forall2 record_of_item items batch.
Proof.
  intros Halbums Hitems. unfold process_data, py_get, py_iter, rbind.
  rewrite Halbums, Hitems.
  apply comprehension_Forall2. exact process_item_record.
Qed.

Lemma process_data_records_match_items_witness :
  Forall2 record_of_item
    [sample_item "Blue" "Joni" "1"; sample_item "Kind" "Miles" "2"]
    [[("name", JStr "Blue"); ("artist", JStr "Joni"); ("id", JStr "1")];
     [("name", JStr "Kind"); ("artist", JStr "Miles"); ("id", JStr "2")]].
Proof.
  apply (process_data_records_match_items
           [("albums", JObj [("items", JList [sample_item "Blue" "Joni" "1";
                                               sample_item "Kind" "Miles" "2"])])]
           [("items", JList [sample_item "Blue" "Joni" "1";
                             sample_item "Kind" "Miles" "2"])]
           [sample_item "Blue" "Joni" "1"; sample_item "Kind" "Miles" "2"]);
    reflexivity.
Defined.

(** ** Running again *)

Lemma while_not_complete_exit (fuel : nat) :
  forall (net : nat -> http_result) (rnd : nat -> Q) (s s' : Agent),
    while_not_complete fuel net rnd s = Some (Return tt s') ->
    collection_complete s' = true.
Proof.
  induction fuel as [| fuel IH]; intros net rnd s s'; cbn [while_not_complete];
    destruct (collection_complete s) eqn:Hguard; try discriminate;
    try (intros [= <-]; exact Hguard).
  destruct (iteration (net O) (rnd O) s) as [[] s1 | e s1]; [apply IH | discriminate].
Qed.

(** X13: a run entered with [total_requests >= max_requests] (a fresh agent
    with [max_requests <= 0], or an agent run before) makes no GET and leaves
    the agent untouched, whatever the fuel: it ends COMPLETE when the token
    request yields a usable token and ABORTED when it does not.  So after a
    run that ended COMPLETE, running the same agent again changes nothing:
    the counters are not reset. *)
Theorem completed_run_is_idempotent
  (fuel : nat) (tok : http_result) (net : nat -> http_result) (rnd : nat -> Q)
  (s : Agent) :
  (collection_complete s = true ->
   run_collection fuel tok net rnd s
   = Some (Return (if truthy (get_token tok) then COMPLETE else ABORTED) s))
  /\ (forall fuel0 tok0 net0 rnd0 s0,
        run_collection fuel0 tok0 net0 rnd0 s0 = Some (Return COMPLETE s) ->
        run_collection fuel tok net rnd s
        = Some (Return (if truthy (get_token tok) then COMPLETE else ABORTED) s)).
Proof.
  assert (Hdone : collection_complete s = true ->
            run_collection fuel tok net rnd s
            = Some (Return (if truthy (get_token tok) then COMPLETE else ABORTED) s)).
  { intros Hc. unfold run_collection.
    destruct (truthy (get_token tok)); cbn [negb]; [| reflexivity].
    destruct fuel; cbn [while_not_complete]; rewrite Hc; reflexivity. }
  split; [exact Hdone |].
  intros fuel0 tok0 net0 rnd0 s0. unfold run_collection at 1.
  destruct (negb (truthy (get_token tok0))); [discriminate |].
  destruct (while_not_complete fuel0 net0 rnd0 s0) as [[[] s1 | e s1] |] eqn:Hw;
    try discriminate.
  intros [= ->]. apply Hdone. exact (while_not_complete_exit _ _ _ _ _ Hw).
Qed.

Lemma completed_run_is_idempotent_witness :
  run_collection 0 token_ok (fun _ => TransportError) (fun _ => 1%Q) (init 1 0)
  = Some (Return COMPLETE (init 1 0))
  /\ run_collection 5 (Response 401 None) (fun _ => TransportError) (fun _ => 1%Q)
       (mkAgent [] (mkStats 2 0 2 []) 4%Q 1%Q 2)
     = Some (Return ABORTED (mkAgent [] (mkStats 2 0 2 []) 4%Q 1%Q 2)).
Proof.
  split.
  - apply (proj1 (completed_run_is_idempotent 0 token_ok (fun _ => TransportError)
                    (fun _ => 1%Q) (init 1 0))).
    reflexivity.
  - apply (proj2 (completed_run_is_idempotent 5 (Response 401 None)
                    (fun _ => TransportError) (fun _ => 1%Q)
                    (mkAgent [] (mkStats 2 0 2 []) 4%Q 1%Q 2))
             2%nat token_ok (fun _ => Response 429 None) (fun _ => 1%Q) (init 1 2)).
    vm_compute. reflexivity.
Defined.

(** * The simulated agent and its reports *)

(** ** [collect_data] *)

Lemma collect_loop_effect (k : nat) : forall (a : nat) (s : Reports.Agent),
  let s' := fold_left Reports.collect_step (seq a k) s in
  Reports.data_store s'
  = (Reports.data_store s ++ map Reports.make_item (seq a k))%list
  /\ Reports.total_requests (Reports.collection_stats s')
     = Reports.total_requests (Reports.collection_stats s) + Z.of_nat k
  /\ Reports.successful_requests (Reports.collection_stats s')
     = Reports.successful_requests (Reports.collection_stats s) + Z.of_nat k
  /\ Reports.failed_requests (Reports.collection_stats s')
     = Reports.failed_requests (Reports.collection_stats s)
  /\ Reports.quality_scores (Reports.collection_stats s')
     = (Reports.quality_scores (Reports.collection_stats s) ++ repeat 1%Q k)%list
  /\ Reports.apis_used (Reports.collection_stats s')
     = Reports.apis_used (Reports.collection_stats s)
  /\ Reports.delay_multiplier s' = Reports.delay_multiplier s.
Proof.
  induction k as [| k IH]; intros a s.
  - cbn. rewrite !app_nil_r. repeat split; lia.
  - cbn [seq fold_left map repeat].
    destruct (IH (S a) (Reports.collect_step s a)) as (H1 & H2 & H3 & H4 & H5 & H6 & H7).
    cbv zeta. rewrite H1, H2, H3, H4, H5, H6, H7. cbn -[Z.add Z.of_nat].
    rewrite <- !app_assoc. cbn [app]. repeat split; lia.
Qed.

(** X14: when the token response decodes to a dict with 'access_token',
    [collect_data(n)] on a fresh agent returns with [max(n, 0)] records,
    'Song i' by 'Artist i' with id 'id_i' for i = 0, 1, ... in order; it
    counts as many requests, all successful, none failed, records a score of
    1.0 for each, and has used the token endpoint only. *)
Theorem collect_data_collects
  (status_code : Z) (o : dict) (token : json) (n : Z) :
  dict_get "access_token" o = Some token ->
  exists s',
    Reports.collect_data (Response status_code (Some (JObj o))) n Reports.init
    = Reports.Return tt s'
    /\ Reports.data_store s' = map Reports.make_item (seq 0 (Z.to_nat n))
    /\ Z.of_nat (List.length (Reports.data_store s')) = Z.max n 0
    /\ Reports.total_requests (Reports.collection_stats s') = Z.max n 0
    /\ Reports.successful_requests (Reports.collection_stats s') = Z.max n 0
    /\ Reports.failed_requests (Reports.collection_stats s') = 0
    /\ Reports.quality_scores (Reports.collection_stats s') = repeat 1%Q (Z.to_nat n)
    /\ Reports.apis_used (Reports.collection_stats s') = ["Spotify API /token"].
Proof.
  intros Htok. unfold Reports.collect_data, Reports.get_token, py_getitem_str.
  rewrite Htok.
  destruct (collect_loop_effect (Z.to_nat n) 0
              (Reports.add_api "Spotify API /token" Reports.init))
    as (H1 & H2 & H3 & H4 & H5 & H6 & _).
  eexists. split; [reflexivity |].
  rewrite H1, H2, H3, H4, H5, H6. cbn -[Z.add Z.of_nat Z.to_nat seq].
  rewrite length_map, length_seq. repeat split; lia.
Qed.

Lemma collect_data_collects_witness :
  exists s',
    Reports.collect_data token_ok 20 Reports.init = Reports.Return tt s'
    /\ Reports.data_store s' = map Reports.make_item (seq 0 (Z.to_nat 20))
    /\ Z.of_nat (List.length (Reports.data_store s')) = Z.max 20 0
    /\ Reports.total_requests (Reports.collection_stats s') = Z.max 20 0
    /\ Reports.successful_requests (Reports.collection_stats s') = Z.max 20 0
    /\ Reports.failed_requests (Reports.collection_stats s') = 0
    /\ Reports.quality_scores (Reports.collection_stats s') = repeat 1%Q (Z.to_nat 20)
    /\ Reports.apis_used (Reports.collection_stats s') = ["Spotify API /token"].
Proof.
  apply (collect_data_collects 200 [("access_token", JStr "BQD")] (JStr "BQD") 20).
  reflexivity.
Defined.

(** X15: [collect_data] raises exactly when the token response is not a
    body that decodes to a dict with 'access_token', and it then raises
    before its loop, having collected and counted nothing: a transport error
    leaves the agent fresh; an undecodable body raises a decode error, a body
    that is not a dict TypeError and a dict without 'access_token' (such as
    the error body of a 401, whose status is never looked at) KeyError, each
    after the token endpoint was noted in [apis_used]. *)
Theorem collect_data_raises_without_token (r : http_result) (n : Z) :
  (token_response_ok r = false ->
   exists e s',
     Reports.collect_data r n Reports.init = Reports.Raise e s'
     /\ Reports.data_store s' = []
     /\ Reports.total_requests (Reports.collection_stats s') = 0
     /\ Reports.successful_requests (Reports.collection_stats s') = 0
     /\ Reports.quality_scores (Reports.collection_stats s') = []
     /\ match r with
        | TransportError =>
            e = Reports.RequestException /\ s' = Reports.init
        | Response _ None =>
            e = Reports.JSONDecodeError
            /\ Reports.apis_used (Reports.collection_stats s') = ["Spotify API /token"]
        | Response _ (Some (JObj _)) =>
            e = Reports.Builtin KeyError
            /\ Reports.apis_used (Reports.collection_stats s') = ["Spotify API /token"]
        | Response _ (Some _) =>
            e = Reports.Builtin TypeError
            /\ Reports.apis_used (Reports.collection_stats s') = ["Spotify API /token"]
        end)
  /\ (forall e s',
        Reports.collect_data r n Reports.init = Reports.Raise e s' ->
        token_response_ok r = false).
Proof.
  unfold Reports.collect_data, Reports.get_token, py_getitem_str, token_response_ok, dict_in.
  split.
  - destruct r as [| status_code [[| b | q | str | l | o] |]];
      try (intros _; eexists; eexists; split; [reflexivity |]; cbn; auto 10).
    destruct (dict_get "access_token" o); [discriminate |].
    intros _. eexists. eexists. split; [reflexivity |]. cbn. auto 10.
  - intros e s'.
    destruct r as [| status_code [[| b | q | str | l | o] |]]; try reflexivity.
    destruct (dict_get "access_token" o); [discriminate | reflexivity].
Qed.

Lemma collect_data_raises_without_token_witness :
  exists e s',
    Reports.collect_data
      (Response 401 (Some (JObj [("error", JStr "invalid_client")]))) 20 Reports.init
    = Reports.Raise e s'
    /\ Reports.data_store s' = []
    /\ Reports.total_requests (Reports.collection_stats s') = 0
    /\ Reports.successful_requests (Reports.collection_stats s') = 0
    /\ Reports.quality_scores (Reports.collection_stats s') = []
    /\ e = Reports.Builtin KeyError
    /\ Reports.apis_used (Reports.collection_stats s') = ["Spotify API /token"].
Proof.
  apply (proj1 (collect_data_raises_without_token
                  (Response 401 (Some (JObj [("error", JStr "invalid_client")]))) 20)).
  reflexivity.
Defined.

Lemma str_of_nat_inj (i j : nat) :
  Reports.str_of_nat i = Reports.str_of_nat j -> i = j.
Proof.
  unfold Reports.str_of_nat. intros H.
  apply DecimalNat.Unsigned.to_uint_inj.
  apply (f_equal NilEmpty.uint_of_string) in H.
  rewrite !NilEmpty.usu in H. congruence.
Qed.

Lemma NoDup_map_seq {A : Type} (f : nat -> A) (a k : nat) :
  (forall i j, f i = f j -> i = j) -> NoDup (map f (seq a k)).
Proof.
  intros Hinj. apply NoDup_map_NoDup_ForallPairs; [| apply seq_NoDup].
  intros i j _ _. apply Hinj.
Qed.

(** X16: the records [collect_data] builds are pairwise distinct in each of
    'id', 'name' and 'artist': the decimal rendering of the loop index is
    injective. *)
Theorem collect_data_ids_distinct
  (r : http_result) (n : Z) (s' : Reports.Agent) :
  Reports.collect_data r n Reports.init = Reports.Return tt s' ->
  NoDup (map (dict_get "id") (Reports.data_store s'))
  /\ NoDup (map (dict_get "name") (Reports.data_store s'))
  /\ NoDup (map (dict_get "artist") (Reports.data_store s')).
Proof.
  unfold Reports.collect_data.
  destruct (Reports.get_token r Reports.init) as [token s1 | e s1] eqn:Htok;
    [| discriminate].
  intros [= <-].
  destruct (collect_loop_effect (Z.to_nat n) 0 s1) as (Hstore & _).
  assert (Hempty : Reports.data_store s1 = []).
  { revert Htok. unfold Reports.get_token.
    destruct r as [| status_code [v |]]; try discriminate.
    destruct (py_getitem_str v "access_token"); [| discriminate].
    intros [= _ <-]. reflexivity. }
  rewrite Hstore, Hempty. cbn [app]. rewrite !map_map. cbn.
  repeat split; apply NoDup_map_seq; intros i j [= H];
    apply str_of_nat_inj; exact H.
Qed.

Lemma collect_data_ids_distinct_witness :
  NoDup (map (dict_get "id") (map Reports.make_item (seq 0 3)))
  /\ NoDup (map (dict_get "name") (map Reports.make_item (seq 0 3)))
  /\ NoDup (map (dict_get "artist") (map Reports.make_item (seq 0 3))).
Proof.
  apply (collect_data_ids_distinct token_ok 3
           (Reports.mkAgent
              (map Reports.make_item (seq 0 3))
              (Reports.mkStats 3 3 0 [1%Q; 1%Q; 1%Q] ["Spotify API /token"]) 1%Q)).
  vm_compute. reflexivity.
Defined.

(** ** The reports *)

Lemma sum_floats_bounds (l : list Q) : forall acc : Q,
  Forall (fun q => (0 <= q)%Q /\ (q <= 1)%Q) l ->
  (acc <= fold_left Qplus l acc)%Q
  /\ (fold_left Qplus l acc <= acc + inject_Z (Z.of_nat (List.length l)))%Q.
Proof.
  induction l as [| q l IH]; intros acc Hall; cbn [fold_left List.length].
  - change (inject_Z (Z.of_nat 0)) with 0%Q. split; lra.
  - inversion Hall as [| q' l' (Hlo & Hhi) Hrest]; subst.
    destruct (IH (acc + q)%Q Hrest) as (H1 & H2).
    rewrite Nat2Z.inj_succ, <- Z.add_1_r, inject_Z_plus.
    change (inject_Z 1) with 1%Q. split; lra.
Qed.

Lemma sum_floats_ones (l : list Q) : forall acc : Q,
  Forall (fun q => (q == 1)%Q) l ->
  (fold_left Qplus l acc == acc + inject_Z (Z.of_nat (List.length l)))%Q.
Proof.
  induction l as [| q l IH]; intros acc Hall; cbn [fold_left List.length].
  - change (inject_Z (Z.of_nat 0)) with 0%Q. lra.
  - inversion Hall as [| q' l' Hq Hrest]; subst.
    rewrite (IH (acc + q)%Q Hrest).
    rewrite Nat2Z.inj_succ, <- Z.add_1_r, inject_Z_plus.
    change (inject_Z 1) with 1%Q. lra.
Qed.

(** X17: the average quality score of the metadata and of the summary is 0
    for an empty history (the [max(len, 1)] keeps the division defined), lies
    in [0,1] when every score does, and is 1 for a non-empty history of
    ones. *)
Theorem average_quality_score_bounds (store : list dict) (c : Reports.Stats) :
  let avg := Reports.md_average_quality_score (Reports.generate_metadata store c) in
  Reports.sm_average_quality_score (Reports.generate_collection_summary store c) = avg
  /\ (Reports.quality_scores c = [] -> (avg == 0)%Q)
  /\ (Forall (fun q => (0 <= q)%Q /\ (q <= 1)%Q) (Reports.quality_scores c) ->
      (0 <= avg)%Q /\ (avg <= 1)%Q)
  /\ (Reports.quality_scores c <> [] ->
      Forall (fun q => (q == 1)%Q) (Reports.quality_scores c) ->
      (avg == 1)%Q).
Proof.
  cbn. unfold Reports.average_quality_score, Reports.py_sum_floats.
  split; [reflexivity |]. split; [| split].
  - intros ->. reflexivity.
  - intros Hall.
    destruct (sum_floats_bounds _ 0%Q Hall) as (Hlo & Hhi).
    set (len := Z.of_nat (List.length (Reports.quality_scores c))) in *.
    assert (Hden : (0 < inject_Z (Z.max len 1))%Q).
    { change 0%Q with (inject_Z 0). rewrite <- Zlt_Qlt. lia. }
    assert (Hle : (inject_Z len <= inject_Z (Z.max len 1))%Q).
    { rewrite <- Zle_Qle. lia. }
    split.
    + apply Qle_shift_div_l; [exact Hden | lra].
    + apply Qle_shift_div_r; [exact Hden | lra].
  - intros Hne Hall.
    rewrite (sum_floats_ones _ 0%Q Hall).
    destruct (Reports.quality_scores c) as [| q l]; [congruence |].
    rewrite Z.max_l by (cbn [List.length]; lia).
    rewrite Qplus_0_l. apply Qmult_inv_r.
    intros H. unfold Qeq in H. cbn in H. lia.
Qed.

Lemma average_quality_score_bounds_witness :
  let c := Reports.mkStats 2 2 0 [1%Q; 1%Q] [] in
  let avg := Reports.md_average_quality_score (Reports.generate_metadata [] c) in
  ((0 <= avg)%Q /\ (avg <= 1)%Q) /\ (avg == 1)%Q
  /\ (Reports.md_average_quality_score
        (Reports.generate_metadata [] (Reports.mkStats 0 0 0 [] [])) == 0)%Q.
Proof.
  split; [| split].
  - apply (proj1 (proj2 (proj2 (average_quality_score_bounds []
                                  (Reports.mkStats 2 2 0 [1%Q; 1%Q] []))))).
    repeat constructor; vm_compute; discriminate.
  - apply (proj2 (proj2 (proj2 (average_quality_score_bounds []
                                  (Reports.mkStats 2 2 0 [1%Q; 1%Q] []))))).
    + discriminate.
    + repeat constructor.
  - apply (proj1 (proj2 (average_quality_score_bounds []
                           (Reports.mkStats 0 0 0 [] [])))).
    reflexivity.
Defined.

Lemma comprehension_err_inv {A B : Type} (f : A -> result B) (l : list A) (e : exn) :
  comprehension f l = Err e -> exists a, In a l /\ f a = Err e.
Proof.
  induction l as [| a l IH]; cbn [comprehension]; [discriminate |].
  destruct (f a) as [b | e'] eqn:Ha; cbn [rbind].
  - destruct (comprehension f l) as [bs | e']; cbn [rbind]; [discriminate |].
    intros [= <-]. destruct (IH eq_refl) as (x & Hx & Hfx).
    exists x. split; [right; exact Hx | exact Hfx].
  - intros [= <-]. exists a. split; [left; reflexivity | exact Ha].
Qed.

Lemma comprehension_ok_inv {A B : Type} (f : A -> result B) (l : list A) (bs : list B) :
  comprehension f l = Ok bs -> forall a, In a l -> exists b, f a = Ok b.
Proof.
  revert bs. induction l as [| x l IH]; intros bs; cbn [comprehension];
    [intros _ a [] |].
  destruct (f x) as [b | e] eqn:Hx; cbn [rbind]; [| discriminate].
  destruct (comprehension f l) as [bs' | e]; cbn [rbind]; [| discriminate].
  intros _ a [<- | Ha]; [eauto | exact (IH bs' eq_refl a Ha)].
Qed.

Lemma comprehension_map {A B : Type} (f : A -> result B) (g : A -> B) (l : list A) :
  (forall a, In a l -> f a = Ok (g a)) -> comprehension f l = Ok (map g l).
Proof.
  induction l as [| a l IH]; intros H; cbn [comprehension map]; [reflexivity |].
  rewrite (H a (or_introl eq_refl)). cbn [rbind].
  rewrite IH by (intros x Hx; apply H; right; exact Hx). reflexivity.
Qed.

(** Counting the records by an artist needs the 'artist' of every record. *)
Lemma artist_count_keyerror (store : list dict) (key : json) (d : dict) :
  In d store -> dict_in "artist" d = false ->
  Reports.artist_count store key = Err KeyError.
Proof.
  intros Hin Hlack. unfold Reports.artist_count.
  destruct (comprehension _ store) as [hits | e] eqn:Hc; cbn [rbind].
  - destruct (comprehension_ok_inv _ _ _ Hc d Hin) as (b & Hb).
    revert Hb Hlack. unfold Reports.record_getitem, dict_in.
    destruct (dict_get "artist" d); [discriminate 2 | discriminate 1].
  - destruct (comprehension_err_inv _ _ _ Hc) as (x & _ & Hx).
    revert Hx. unfold Reports.record_getitem.
    destruct (dict_get "artist" x); cbn [rbind]; congruence.
Qed.

Lemma data_distribution_keyerror (store : list dict) (d : dict) :
  In d store -> dict_in "artist" d = false ->
  Reports.data_distribution store = Err KeyError.
Proof.
  intros Hin Hlack. unfold Reports.data_distribution.
  destruct store as [| d1 rest]; [contradiction |].
  cbn [Reports.distribution_from]. unfold Reports.record_getitem at 1.
  destruct (dict_get "artist" d1) as [key |]; cbn [rbind]; [| reflexivity].
  rewrite (artist_count_keyerror (d1 :: rest) key d Hin Hlack). reflexivity.
Qed.

(** X18: [generate_quality_report] raises KeyError as soon as one record has
    no 'artist', whatever else the store holds.  So when it returns a
    report, every record has an 'artist' and the anomalies it lists are
    exactly the records without 'name': a record with a missing artist is
    never reported as an anomaly. *)
Theorem quality_report_needs_artist (store : list dict) (c : Reports.Stats) :
  (forall d, In d store -> dict_in "artist" d = false ->
             Reports.generate_quality_report store c = Err KeyError)
  /\ (forall report,
        Reports.generate_quality_report store c = Ok report ->
        Forall (fun d => dict_in "artist" d = true) store
        /\ Reports.qr_anomaly_detection report
           = filter (fun d => negb (dict_in "name" d)) store).
Proof.
  assert (Herr : forall d, In d store -> dict_in "artist" d = false ->
                           Reports.generate_quality_report store c = Err KeyError).
  { intros d Hin Hlack. unfold Reports.generate_quality_report.
    rewrite (data_distribution_keyerror store d Hin Hlack). reflexivity. }
  split; [exact Herr |].
  intros report Hrep.
  assert (Hall : forall d, In d store -> dict_in "artist" d = true).
  { intros d Hin. destruct (dict_in "artist" d) eqn:E; [reflexivity |].
    rewrite (Herr d Hin E) in Hrep. discriminate. }
  split; [apply Forall_forall; exact Hall |].
  revert Hrep. unfold Reports.generate_quality_report.
  destruct (Reports.data_distribution store); cbn [rbind]; [| discriminate].
  intros [= <-]. cbn. unfold Reports.anomalies.
  apply filter_ext_in. intros d Hin. rewrite (Hall d Hin). apply orb_false_r.
Qed.

Lemma quality_report_needs_artist_witness :
  Reports.generate_quality_report
    [[("name", JStr "Song 0"); ("artist", JStr "Artist 0")]; [("name", JStr "Song 1")]]
    (Reports.mkStats 2 2 0 [1%Q; 1%Q] [])
  = Err KeyError.
Proof.
  apply (proj1 (quality_report_needs_artist
                  [[("name", JStr "Song 0"); ("artist", JStr "Artist 0")];
                   [("name", JStr "Song 1")]]
                  (Reports.mkStats 2 2 0 [1%Q; 1%Q] []))
           [("name", JStr "Song 1")]).
  - right. left. reflexivity.
  - reflexivity.
Defined.

(** ** The distribution of records over artists *)

Lemma counts_get_set_same (a : string) (v : Z) (acc : Reports.counts) :
  Reports.counts_get (JStr a) (Reports.counts_set (JStr a) v acc) = Some v.
Proof.
  induction acc as [| [k w] acc IH]; cbn [Reports.counts_set Reports.counts_get].
  - cbn. rewrite String.eqb_refl. reflexivity.
  - destruct (Reports.py_eq k (JStr a)) eqn:E; cbn [Reports.counts_get]; rewrite E;
      [reflexivity | exact IH].
Qed.

Lemma counts_get_set_other (a b : string) (v : Z) (acc : Reports.counts) :
  a <> b ->
  Forall (fun kv : json * Z => exists c, fst kv = JStr c) acc ->
  Reports.counts_get (JStr a) (Reports.counts_set (JStr b) v acc)
  = Reports.counts_get (JStr a) acc.
Proof.
  intros Hab. induction acc as [| [k w] acc IH]; intros Hkeys;
    cbn [Reports.counts_set Reports.counts_get].
  - cbn. destruct (String.eqb_spec b a); [congruence | reflexivity].
  - inversion Hkeys as [| kv acc' (c & Hc) Hrest]; subst. cbn in Hc. subst k.
    cbn [Reports.py_eq].
    destruct (String.eqb_spec c b) as [-> | Hcb]; cbn [Reports.counts_get Reports.py_eq].
    + destruct (String.eqb_spec b a); [congruence | reflexivity].
    + destruct (String.eqb c a); [reflexivity | exact (IH Hrest)].
Qed.

Lemma counts_set_keys (b : string) (v : Z) (acc : Reports.counts) (k : json) :
  In k (map fst (Reports.counts_set (JStr b) v acc)) ->
  In k (map fst acc) \/ k = JStr b.
Proof.
  induction acc as [| [k' w] acc IH]; cbn [Reports.counts_set map fst In].
  - intros [<- | []]. right. reflexivity.
  - destruct (Reports.py_eq k' (JStr b)); cbn [map fst In].
    + intros [<- | H]; auto.
    + intros [<- | H]; [auto |]. destruct (IH H); auto.
Qed.

Lemma counts_set_NoDup (b : string) (v : Z) (acc : Reports.counts) :
  Forall (fun kv : json * Z => exists c, fst kv = JStr c) acc ->
  NoDup (map fst acc) ->
  NoDup (map fst (Reports.counts_set (JStr b) v acc)).
Proof.
  induction acc as [| [k w] acc IH]; intros Hkeys Hnd;
    cbn [Reports.counts_set map fst].
  - repeat constructor. intros [].
  - inversion Hkeys as [| kv acc' (c & Hc) Hrest]; subst. cbn in Hc. subst k.
    inversion Hnd as [| k keys Hnotin Hnd']; subst.
    cbn [Reports.py_eq]. destruct (String.eqb_spec c b) as [-> | Hcb]; cbn [map fst].
    + constructor; assumption.
    + constructor; [| exact (IH Hrest Hnd')].
      intros Hin. destruct (counts_set_keys _ _ _ _ Hin) as [H | [= H]]; auto.
Qed.

Lemma filter_map_length {A : Type} (g : A -> bool) (l : list A) :
  List.length (filter (fun b : bool => b) (map g l)) = List.length (filter g l).
Proof.
  induction l as [| a l IH]; cbn [map filter]; [reflexivity |].
  destruct (g a); cbn [List.length]; rewrite IH; reflexivity.
Qed.

Lemma artist_count_strings (store : list dict) (a : string) :
  Forall (fun d => exists b, dict_get "artist" d = Some (JStr b)) store ->
  Reports.artist_count store (JStr a) = Ok (Z.of_nat (records_by a store)).
Proof.
  intros Hall. unfold Reports.artist_count.
  rewrite (comprehension_map _ (by_artist a)).
  - cbn [rbind]. rewrite py_sum_ones, filter_map_length. reflexivity.
  - intros d Hd. rewrite Forall_forall in Hall. destruct (Hall d Hd) as (b & Hb).
    unfold Reports.record_getitem, by_artist. rewrite Hb. cbn. 
    rewrite String.eqb_sym. reflexivity.
Qed.

(** The loop of the comprehension over records with string artists: every
    entry maps an artist to its number of records, no key is repeated, and
    the artists of the records gone through are the keys added. *)
Lemma distribution_from_strings (store : list dict) :
  Forall (fun d => exists b, dict_get "artist" d = Some (JStr b)) store ->
  forall (todo : list dict) (acc : Reports.counts),
    Forall (fun d => exists b, dict_get "artist" d = Some (JStr b)) todo ->
    Forall (fun kv : json * Z =>
              exists c, kv = (JStr c, Z.of_nat (records_by c store))) acc ->
    NoDup (map fst acc) ->
    exists dist,
      Reports.distribution_from store todo acc = Ok dist
      /\ Forall (fun kv : json * Z =>
                   exists c, kv = (JStr c, Z.of_nat (records_by c store))) dist
      /\ NoDup (map fst dist)
      /\ forall a,
           Reports.counts_get (JStr a) dist
           = if existsb (by_artist a) todo
             then Some (Z.of_nat (records_by a store))
             else Reports.counts_get (JStr a) acc.
Proof.
  intros Hstore. induction todo as [| d rest IH]; intros acc Htodo Hacc Hnd;
    cbn [Reports.distribution_from existsb].
  - exists acc. auto.
  - inversion Htodo as [| d' rest' (b & Hb) Hrest]; subst.
    unfold Reports.record_getitem. rewrite Hb. cbn [rbind].
    rewrite (artist_count_strings store b Hstore). cbn [rbind Reports.hashable].
    assert (Hkeys : Forall (fun kv : json * Z => exists c, fst kv = JStr c) acc).
    { eapply Forall_impl; [| exact Hacc]. intros kv (c & ->). exists c. reflexivity. }
    destruct (IH (Reports.counts_set (JStr b) (Z.of_nat (records_by b store)) acc))
      as (dist & Hdist & Hentries & Hnd' & Hget).
    + exact Hrest.
    + clear - Hacc. induction acc as [| [k w] acc IHacc]; cbn [Reports.counts_set].
      * constructor; [eauto | constructor].
      * inversion Hacc as [| kv acc' (c & Hc) Hrest]; subst. injection Hc as -> ->.
        cbn [Reports.py_eq]. destruct (String.eqb_spec c b) as [-> | _].
        -- constructor; [eauto | exact Hrest].
        -- constructor; [eauto | exact (IHacc Hrest)].
    + exact (counts_set_NoDup _ _ _ Hkeys Hnd).
    + exists dist. repeat split; try assumption.
      intros a. rewrite Hget.
      assert (Hd : by_artist a d = String.eqb b a)
        by (unfold by_artist; rewrite Hb; reflexivity).
      rewrite Hd.
      destruct (existsb (by_artist a) rest) eqn:Hex.
      * rewrite orb_true_r. reflexivity.
      * rewrite orb_false_r.
        destruct (String.eqb_spec b a) as [-> | Hba].
        -- apply counts_get_set_same.
        -- apply counts_get_set_other; [congruence | exact Hkeys].
Qed.

Lemma sum_indicator (ks : list string) (b : string) :
  NoDup ks -> In b ks ->
  fold_right Z.add 0 (map (fun a => if String.eqb b a then 1 else 0) ks) = 1.
Proof.
  induction ks as [| k ks IH]; intros Hnd Hin; [contradiction |].
  inversion Hnd as [| k' ks' Hnotin Hnd']; subst. cbn [map fold_right].
  destruct (String.eqb_spec b k) as [-> | Hbk].
  - assert (Hzero : fold_right Z.add 0
                      (map (fun a => if String.eqb k a then 1 else 0) ks) = 0).
    { clear - Hnotin. induction ks as [| x ks IHks]; [reflexivity |].
      cbn [map fold_right]. destruct (String.eqb_spec k x) as [-> | _].
      - exfalso. apply Hnotin. left. reflexivity.
      - rewrite IHks; [reflexivity |]. intros H. apply Hnotin. right. exact H. }
    rewrite Hzero. reflexivity.
  - destruct Hin as [-> | Hin]; [congruence |]. rewrite (IH Hnd' Hin). reflexivity.
Qed.

Lemma sum_pointwise_add (f g : string -> Z) (ks : list string) :
  fold_right Z.add 0 (map (fun a => f a + g a) ks)
  = fold_right Z.add 0 (map f ks) + fold_right Z.add 0 (map g ks).
Proof.
  induction ks as [| k ks IH]; cbn [map fold_right]; [reflexivity |].
  rewrite IH. lia.
Qed.

(** Counting the records artist by artist, over artists without repetition
    that include every record's, counts every record once. *)
Lemma records_partition (ks : list string) (l : list dict) :
  NoDup ks ->
  (forall d, In d l -> exists b, dict_get "artist" d = Some (JStr b) /\ In b ks) ->
  fold_right Z.add 0 (map (fun a => Z.of_nat (records_by a l)) ks)
  = Z.of_nat (List.length l).
Proof.
  intros Hnd. induction l as [| d l IH]; intros Hcover.
  - unfold records_by. cbn [filter List.length]. clear.
    induction ks as [| k ks IHks]; cbn [map fold_right]; [reflexivity |].
    rewrite IHks. reflexivity.
  - destruct (Hcover d (or_introl eq_refl)) as (b & Hb & Hin).
    rewrite (map_ext _ (fun a => (if String.eqb b a then 1 else 0)
                                 + Z.of_nat (records_by a l))).
    + rewrite sum_pointwise_add, (sum_indicator ks b Hnd Hin), IH.
      * cbn [List.length]. lia.
      * intros x Hx. apply Hcover. right. exact Hx.
    + intros a. unfold records_by. cbn [filter]. unfold by_artist at 1. rewrite Hb.
      destruct (String.eqb b a); cbn [List.length]; lia.
Qed.

Lemma counts_get_in (a : string) (v : Z) (dist : Reports.counts) :
  Forall (fun kv : json * Z => exists c, fst kv = JStr c) dist ->
  Reports.counts_get (JStr a) dist = Some v ->
  In (JStr a) (map fst dist).
Proof.
  induction dist as [| [k w] dist IH]; intros Hkeys; cbn [Reports.counts_get map fst In];
    [discriminate |].
  inversion Hkeys as [| kv dist' (c & Hc) Hrest]; subst. cbn in Hc. subst k.
  cbn [Reports.py_eq]. destruct (String.eqb_spec c a) as [-> | _]; [auto |].
  intros H. right. exact (IH Hrest H).
Qed.

(** X19: for a store whose records all have a string 'artist', the quality
    report returns, and its 'data_distribution' has one entry per artist of
    the store, holding the number of records by that artist; an artist with
    no record has no entry, and the counts add up to the number of
    records. *)
Theorem data_distribution_counts (store : list dict) (c : Reports.Stats) :
  Forall (fun d => exists b, dict_get "artist" d = Some (JStr b)) store ->
  exists report,
    Reports.generate_quality_report store c = Ok report
    /\ (forall a,
          Reports.counts_get (JStr a) (Reports.qr_data_distribution report)
          = if existsb (by_artist a) store
            then Some (Z.of_nat (records_by a store))
            else None)
    /\ NoDup (map fst (Reports.qr_data_distribution report))
    /\ counts_total (Reports.qr_data_distribution report)
       = Z.of_nat (List.length store).
Proof.
  intros Hstore.
  destruct (distribution_from_strings store Hstore store [] Hstore)
    as (dist & Hdist & Hentries & Hnd & Hget); [constructor | constructor |].
  unfold Reports.generate_quality_report, Reports.data_distribution.
  rewrite Hdist. cbn [rbind]. eexists. split; [reflexivity |].
  cbn [Reports.qr_data_distribution]. split; [| split].
  - intros a. rewrite Hget. reflexivity.
  - exact Hnd.
  - assert (Hks : exists ks,
              dist = map (fun a => (JStr a, Z.of_nat (records_by a store))) ks).
    { clear - Hentries. induction dist as [| kv dist IH].
      - exists []. reflexivity.
      - inversion Hentries as [| kv' dist' (a & ->) Hrest]; subst.
        destruct (IH Hrest) as (ks & ->). exists (a :: ks). reflexivity. }
    destruct Hks as (ks & ->).
    unfold counts_total. rewrite !map_map in *. cbn [snd fst] in *.
    apply records_partition.
    + exact (NoDup_map_inv _ _ Hnd).
    + intros d Hd. rewrite Forall_forall in Hstore.
      destruct (Hstore d Hd) as (b & Hb). exists b. split; [exact Hb |].
      assert (Hfound : Reports.counts_get (JStr b)
                         (map (fun a => (JStr a, Z.of_nat (records_by a store))) ks)
                       = Some (Z.of_nat (records_by b store))).
      { rewrite Hget.
        replace (existsb (by_artist b) store) with true; [reflexivity |].
        symmetry. apply existsb_exists. exists d. split; [exact Hd |].
        unfold by_artist. rewrite Hb. apply String.eqb_refl. }
      apply counts_get_in in Hfound.
      * rewrite map_map in Hfound. cbn [fst] in Hfound.
        apply in_map_iff in Hfound as (x & [= ->] & Hx). exact Hx.
      * apply Forall_forall. intros kv Hkv.
        apply in_map_iff in Hkv as (x & <- & _). exists x. reflexivity.
Qed.

Lemma data_distribution_counts_witness :
  exists report,
    Reports.generate_quality_report
      [[("name", JStr "Blue"); ("artist", JStr "Joni")];
       [("name", JStr "Kind"); ("artist", JStr "Miles")];
       [("name", JStr "Hejira"); ("artist", JStr "Joni")]]
      (Reports.mkStats 3 3 0 [] []) = Ok report
    /\ (forall a,
          Reports.counts_get (JStr a) (Reports.qr_data_distribution report)
          = if existsb (by_artist a)
                 [[("name", JStr "Blue"); ("artist", JStr "Joni")];
                  [("name", JStr "Kind"); ("artist", JStr "Miles")];
                  [("name", JStr "Hejira"); ("artist", JStr "Joni")]]
            then Some (Z.of_nat (records_by a
                 [[("name", JStr "Blue"); ("artist", JStr "Joni")];
                  [("name", JStr "Kind"); ("artist", JStr "Miles")];
                  [("name", JStr "Hejira"); ("artist", JStr "Joni")]]))
            else None)
    /\ NoDup (map fst (Reports.qr_data_distribution report))
    /\ counts_total (Reports.qr_data_distribution report) = Z.of_nat 3.
Proof.
  apply (data_distribution_counts
           [[("name", JStr "Blue"); ("artist", JStr "Joni")];
            [("name", JStr "Kind"); ("artist", JStr "Miles")];
            [("name", JStr "Hejira"); ("artist", JStr "Joni")]]
           (Reports.mkStats 3 3 0 [] [])).
  repeat constructor; eexists; reflexivity.
Defined.

(** ** The reports of a collected store *)

Lemma collect_data_return (r : http_result) (n : Z) (s' : Reports.Agent) :
  Reports.collect_data r n Reports.init = Reports.Return tt s' ->
  Reports.data_store s' = map Reports.make_item (seq 0 (Z.to_nat n))
  /\ Reports.total_requests (Reports.collection_stats s') = Z.of_nat (Z.to_nat n)
  /\ Reports.successful_requests (Reports.collection_stats s') = Z.of_nat (Z.to_nat n)
  /\ Reports.quality_scores (Reports.collection_stats s') = repeat 1%Q (Z.to_nat n).
Proof.
  unfold Reports.collect_data.
  destruct (Reports.get_token r Reports.init) as [token s1 | e s1] eqn:Htok;
    [| discriminate].
  intros [= <-].
  assert (Hs1 : s1 = Reports.add_api "Spotify API /token" Reports.init).
  { revert Htok. unfold Reports.get_token.
    destruct r as [| status_code [v |]]; try discriminate.
    destruct (py_getitem_str v "access_token"); [| discriminate].
    intros [= _ <-]. reflexivity. }
  destruct (collect_loop_effect (Z.to_nat n) 0 s1) as (H1 & H2 & H3 & _ & H5 & _).
  rewrite H1, H2, H3, H5, Hs1. cbn -[Z.of_nat Z.to_nat seq]. auto.
Qed.

Lemma by_artist_make_item (i j : nat) :
  by_artist (String.append "Artist " (Reports.str_of_nat i)) (Reports.make_item j)
  = (j =? i)%nat.
Proof.
  unfold by_artist. cbn [Reports.make_item dict_get String.eqb Ascii.eqb Bool.eqb].
  cbn -[Reports.str_of_nat Nat.eqb].
  destruct (Nat.eqb_spec j i) as [-> | Hji].
  - apply String.eqb_refl.
  - apply String.eqb_neq. intros H. apply Hji. exact (str_of_nat_inj _ _ H).
Qed.

Lemma count_in_seq (i k : nat) : forall a : nat,
  List.length (filter (fun j => (j =? i)%nat) (seq a k))
  = if ((a <=? i)%nat && (i <? a + k)%nat)%bool then 1%nat else 0%nat.
Proof.
  induction k as [| k IH]; intros a; cbn [seq filter].
  - destruct (Nat.leb_spec a i), (Nat.ltb_spec i (a + 0)); cbn; try reflexivity; lia.
  - rewrite <- Nat.add_succ_comm.
    destruct (Nat.eqb_spec a i) as [-> | Hai]; cbn [List.length]; rewrite IH.
    + destruct (Nat.leb_spec (S i) i), (Nat.leb_spec i i), (Nat.ltb_spec i (S i + k));
        cbn; try reflexivity; lia.
    + destruct (Nat.leb_spec (S a) i), (Nat.leb_spec a i), (Nat.ltb_spec i (S a + k));
        cbn; try reflexivity; lia.
Qed.

Lemma make_item_complete (l : list nat) :
  filter (fun d => dict_in "name" d && dict_in "artist" d) (map Reports.make_item l)
  = map Reports.make_item l
  /\ Reports.anomalies (map Reports.make_item l) = [].
Proof.
  unfold Reports.anomalies. induction l as [| i l (IH1 & IH2)]; [split; reflexivity |].
  cbn [map filter]. 
  change (dict_in "name" (Reports.make_item i)) with true.
  change (dict_in "artist" (Reports.make_item i)) with true.
  cbn [andb orb negb]. rewrite IH1, IH2. split; reflexivity.
Qed.

(** X20: on the store and statistics [collect_data] leaves, the quality
    report returns and lists no anomaly, the summary lists no issue, and
    every collected artist has exactly one record in the distribution; when
    at least one record was collected, the success rate, the completeness
    ratio and the average quality score are all 1. *)
Theorem collected_data_reports_clean
  (r : http_result) (n : Z) (s' : Reports.Agent) :
  Reports.collect_data r n Reports.init = Reports.Return tt s' ->
  let store := Reports.data_store s' in
  let c := Reports.collection_stats s' in
  exists report,
    Reports.generate_quality_report store c = Ok report
    /\ Reports.qr_anomaly_detection report = []
    /\ Reports.sm_issues_encountered (Reports.generate_collection_summary store c) = []
    /\ (forall i, (i < Z.to_nat n)%nat ->
          Reports.counts_get
            (JStr (String.append "Artist " (Reports.str_of_nat i)))
            (Reports.qr_data_distribution report) = Some 1)
    /\ (0 < n ->
        (Reports.qr_collection_success_rate report == 1)%Q
        /\ (Reports.qr_completeness_ratio report == 1)%Q
        /\ (Reports.sm_average_quality_score
              (Reports.generate_collection_summary store c) == 1)%Q).
Proof.
  intros Hrun. destruct (collect_data_return r n s' Hrun) as (Hstore & Ht & Hsu & Hqs).
  cbv zeta. set (k := Z.to_nat n) in *.
  destruct (make_item_complete (seq 0 k)) as (Hcomplete & Hanom).
  assert (Hstr : Forall (fun d => exists b, dict_get "artist" d = Some (JStr b))
                        (Reports.data_store s')).
  { rewrite Hstore. apply Forall_forall. intros d Hd.
    apply in_map_iff in Hd as (i & <- & _). eexists. reflexivity. }
  destruct (distribution_from_strings _ Hstr (Reports.data_store s') [] Hstr)
    as (dist & Hdist & _ & _ & Hget); [constructor | constructor |].
  unfold Reports.generate_quality_report, Reports.data_distribution.
  rewrite Hdist. cbn [rbind]. eexists. split; [reflexivity |].
  cbn [Reports.qr_anomaly_detection Reports.qr_data_distribution
       Reports.qr_collection_success_rate Reports.qr_completeness_ratio
       Reports.generate_collection_summary Reports.sm_issues_encountered
       Reports.sm_average_quality_score].
  assert (Hone : forall m : nat, (0 < m)%nat ->
            (inject_Z (Z.of_nat m) / inject_Z (Z.max (Z.of_nat m) 1) == 1)%Q).
  { intros m Hm. rewrite Z.max_l by lia. apply Qmult_inv_r.
    intros H. unfold Qeq in H. cbn in H. lia. }
  rewrite Hstore at 1 2. rewrite Hanom.
  split; [reflexivity |]. split; [reflexivity |]. split.
  - intros i Hi. rewrite Hget.
    assert (Hcount : records_by (String.append "Artist " (Reports.str_of_nat i))
                                (Reports.data_store s') = 1%nat).
    { rewrite Hstore. unfold records_by.
      assert (Hf : forall l,
                List.length (filter (by_artist
                    (String.append "Artist " (Reports.str_of_nat i)))
                    (map Reports.make_item l))
                = List.length (filter (fun j => (j =? i)%nat) l)).
      { induction l as [| j l IHl]; [reflexivity |].
        cbn [map filter]. rewrite by_artist_make_item.
        destruct (j =? i)%nat; cbn [List.length]; rewrite IHl; reflexivity. }
      rewrite Hf, count_in_seq.
      destruct (Nat.leb_spec 0 i), (Nat.ltb_spec i (0 + k)); cbn; try reflexivity; lia. }
    replace (existsb _ (Reports.data_store s')) with true.
    + rewrite Hcount. reflexivity.
    + symmetry. apply existsb_exists.
      exists (Reports.make_item i). split.
      * rewrite Hstore. apply in_map. apply in_seq. lia.
      * rewrite by_artist_make_item. apply Nat.eqb_refl.
  - intros Hn. assert (Hk : (0 < k)%nat) by lia.
    rewrite Hsu, Ht. split; [exact (Hone k Hk) |]. split.
    + unfold Reports.complete_count. rewrite Hstore, Hcomplete, py_sum_ones.
      rewrite length_map, length_seq. exact (Hone k Hk).
    + unfold Reports.average_quality_score, Reports.py_sum_floats. rewrite Hqs.
      rewrite (sum_floats_ones (repeat 1%Q k) 0%Q)
        by (apply Forall_forall; intros q Hq; apply repeat_spec in Hq; subst;
            reflexivity).
      rewrite repeat_length, Qplus_0_l. exact (Hone k Hk).
Qed.

Lemma collected_data_reports_clean_witness :
  let s' := Reports.mkAgent
              (map Reports.make_item (seq 0 2))
              (Reports.mkStats 2 2 0 [1%Q; 1%Q] ["Spotify API /token"]) 1%Q in
  exists report,
    Reports.generate_quality_report (Reports.data_store s') (Reports.collection_stats s')
    = Ok report
    /\ Reports.qr_anomaly_detection report = []
    /\ Reports.sm_issues_encountered
         (Reports.generate_collection_summary (Reports.data_store s')
            (Reports.collection_stats s')) = []
    /\ (forall i, (i < Z.to_nat 2)%nat ->
          Reports.counts_get
            (JStr (String.append "Artist " (Reports.str_of_nat i)))
            (Reports.qr_data_distribution report) = Some 1)
    /\ (0 < 2 ->
        (Reports.qr_collection_success_rate report == 1)%Q
        /\ (Reports.qr_completeness_ratio report == 1)%Q
        /\ (Reports.sm_average_quality_score
              (Reports.generate_collection_summary (Reports.data_store s')
                 (Reports.collection_stats s')) == 1)%Q).
Proof.
  apply (collected_data_reports_clean token_ok 2).
  vm_compute. reflexivity.
Defined.
